(** * Trading dashboard: backtest engine, trade segmentation and metrics

    Shallow embedding of [src/backtest.py] ([run_backtest]) and
    [src/metrics.py] ([calculate_metrics], [calculate_trade_metrics]).

    Numbers.  The program computes on IEEE doubles held in pandas columns.
    They are modelled as exact rationals extended with the three special
    values the program can produce and test for: [+inf], [-inf] and [NaN]
    (pandas' marker for a missing cell).  Rounding and overflow are left
    out, and so is the sign of zero: a zero divisor counts as [+0]. *)

From Stdlib Require Import ZArith QArith Qcanon List String Ascii Bool Lia.
From Stdlib Require Import Sorted Permutation Lqa.
Import ListNotations.

Open Scope Qc_scope.

(* ================================================================== *)
(** ** Extended rationals standing for float64 *)

Inductive float64 : Type :=
| Fin (q : Qc)
| PInf
| NInf
| NaN.

Definition zq (z : Z) : Qc := Q2Qc (inject_Z z).
Definition fz (z : Z) : float64 := Fin (zq z).

Definition Qcsgn (q : Qc) : Z :=
  match Qccompare q 0 with
  | Lt => (-1)%Z
  | Eq => 0%Z
  | Gt => 1%Z
  end.

Definition Qceqb (a b : Qc) : bool :=
  match Qccompare a b with Eq => true | _ => false end.

Definition Qcltb (a b : Qc) : bool :=
  match Qccompare a b with Lt => true | _ => false end.

Definition is_nan (x : float64) : bool :=
  match x with NaN => true | _ => false end.

Definition is_fin (x : float64) : bool :=
  match x with Fin _ => true | _ => false end.

(** Sign of a value that is not [NaN]. *)
Definition fsgn (x : float64) : Z :=
  match x with
  | Fin q => Qcsgn q
  | PInf => 1%Z
  | NInf => (-1)%Z
  | NaN => 0%Z
  end.

(** The infinity of a given sign; a zero sign is the invalid operation. *)
Definition inf_of_sign (s : Z) : float64 :=
  match s with
  | Zpos _ => PInf
  | Zneg _ => NInf
  | Z0 => NaN
  end.

Definition fneg (x : float64) : float64 :=
  match x with
  | Fin q => Fin (- q)
  | PInf => NInf
  | NInf => PInf
  | NaN => NaN
  end.

Definition fadd (x y : float64) : float64 :=
  match x, y with
  | NaN, _ | _, NaN => NaN
  | Fin a, Fin b => Fin (a + b)
  | PInf, NInf | NInf, PInf => NaN
  | PInf, _ | _, PInf => PInf
  | NInf, _ | _, NInf => NInf
  end.

Definition fsub (x y : float64) : float64 := fadd x (fneg y).

Definition fmul (x y : float64) : float64 :=
  match x, y with
  | NaN, _ | _, NaN => NaN
  | Fin a, Fin b => Fin (a * b)
  | _, _ => inf_of_sign (fsgn x * fsgn y)
  end.

Definition fdiv (x y : float64) : float64 :=
  match x, y with
  | NaN, _ | _, NaN => NaN
  | Fin a, Fin b => if Qceqb b 0 then inf_of_sign (Qcsgn a) else Fin (a / b)
  | Fin _, _ => Fin 0
  | _, Fin b => inf_of_sign (fsgn x * (if Qceqb b 0 then 1 else Qcsgn b))
  | _, _ => NaN
  end.

Definition fabs (x : float64) : float64 :=
  match x with
  | Fin q => Fin (if Qcltb q 0 then - q else q)
  | PInf | NInf => PInf
  | NaN => NaN
  end.

(** Comparisons: every ordered comparison with [NaN] is false, and
    [!=] with [NaN] is true. *)
Definition feqb (x y : float64) : bool :=
  match x, y with
  | Fin a, Fin b => Qceqb a b
  | PInf, PInf | NInf, NInf => true
  | _, _ => false
  end.

Definition fneb (x y : float64) : bool := negb (feqb x y).

Definition fltb (x y : float64) : bool :=
  match x, y with
  | NaN, _ | _, NaN => false
  | Fin a, Fin b => Qcltb a b
  | NInf, NInf | PInf, _ => false
  | NInf, _ | _, PInf => true
  | _, NInf => false
  end.

Definition fgtb (x y : float64) : bool := fltb y x.

Definition fleb (x y : float64) : bool := fltb x y || feqb x y.

(** [np.sign]. *)
Definition np_sign (x : float64) : float64 :=
  match x with
  | NaN => NaN
  | _ => fz (fsgn x)
  end.

(* ================================================================== *)
(** ** pandas column operations *)

Definition column := list float64.

Fixpoint zip_with {A B C} (f : A -> B -> C) (l : list A) (m : list B) : list C :=
  match l, m with
  | a :: l', b :: m' => f a b :: zip_with f l' m'
  | _, _ => []
  end.

(** [Series.shift(1)]: every cell moves one place down, the first is missing. *)
Fixpoint shift_from (prev : float64) (l : column) : column :=
  match l with
  | [] => []
  | x :: t => prev :: shift_from x t
  end.

Definition shift (l : column) : column := shift_from NaN l.

Definition fillna (v : float64) (l : column) : column :=
  map (fun x => if is_nan x then v else x) l.

(** [Series.pct_change()] on a column without missing cells:
    [data / data.shift(1) - 1]. *)
Definition pct_change (l : column) : column :=
  zip_with (fun x p => fsub (fdiv x p) (fz 1)) l (shift l).

(** [Series.cumprod()] (skipna): a missing cell counts as 1 in the running
    product and stays missing in the result. *)
Fixpoint cumprod_from (acc : float64) (l : column) : column :=
  match l with
  | [] => []
  | x :: t =>
      if is_nan x then NaN :: cumprod_from acc t
      else fmul acc x :: cumprod_from (fmul acc x) t
  end.

Definition cumprod (l : column) : column := cumprod_from (fz 1) l.

(* ================================================================== *)
(** ** Exceptions *)

Inductive exn : Type :=
| ValueError (msg : string)
| KeyError (key : string)
| ZeroDivisionError.

Inductive result (A : Type) : Type :=
| Ok (a : A)
| Raise (e : exn).

Arguments Ok {A} a.
Arguments Raise {A} e.

Definition bind {A B} (m : result A) (k : A -> result B) : result B :=
  match m with
  | Ok a => k a
  | Raise e => Raise e
  end.

Notation "x <- m ;; k" := (bind m (fun x => k))
  (at level 61, m at next level, right associativity).

(* ================================================================== *)
(** ** Data model *)

(** One row of the uploaded table.  [forecast = NaN] is a missing cell.
    [date] is read only when the table has a ['date'] column. *)
Record Row : Type := mkRow {
  date : Z;
  close : Qc;
  forecast : float64
}.

(** The table: its column labels as uploaded, and its rows. *)
Record DataFrame : Type := mkDF {
  columns : list string;
  rows : list Row
}.

Inductive direction : Type := Long | Short.

Record Trade : Type := mkTrade {
  start_date : Z;
  end_date : Z;
  type : direction;
  pnl : float64;
  pnl_abs : float64;
  duration : nat
}.

(** The table [run_backtest] returns: the retained input columns and the
    derived ones. *)
Record SimFrame : Type := mkSim {
  dates : list Z;
  closes : column;
  forecasts : column;
  asset_return : column;
  position : column;
  shifted_position : column;
  strategy_return : column;
  asset_equity : column;
  strategy_equity : column
}.

(* ================================================================== *)
(** ** Column labels *)

Definition lower_ascii (c : ascii) : ascii :=
  let n := nat_of_ascii c in
  if (65 <=? n)%nat && (n <=? 90)%nat then ascii_of_nat (n + 32) else c.

Fixpoint lower (s : string) : string :=
  match s with
  | EmptyString => EmptyString
  | String c t => String (lower_ascii c) (lower t)
  end.

Definition has_column (name : string) (cols : list string) : bool :=
  existsb (String.eqb name) cols.

(* ================================================================== *)
(** ** run_backtest: preparation of the table *)

(** [df.sort_values('date')]: rows in ascending date order.  Rows with equal
    dates keep their input order here. *)
Fixpoint insert_by_date (r : Row) (l : list Row) : list Row :=
  match l with
  | [] => [r]
  | h :: t =>
      if (date r <=? date h)%Z then r :: h :: t
      else h :: insert_by_date r t
  end.

Definition sort_values (l : list Row) : list Row :=
  fold_right insert_by_date [] l.

Definition notna (r : Row) : bool := negb (is_nan (forecast r)).

(* ================================================================== *)
(** ** run_backtest: the engine columns (lines 39-54) *)

Definition engine (rs : list Row) (initial_capital leverage : Qc) : SimFrame :=
  let cl := map (fun r => Fin (close r)) rs in
  let fc := map forecast rs in
  let ar := fillna (fz 0) (pct_change cl) in
  let pos := map (fun f => fmul (fdiv f (fz 10)) (Fin leverage)) fc in
  let sh := fillna (fz 0) (shift pos) in
  let sr := zip_with fmul ar sh in
  let ae := map (fmul (Fin initial_capital)) (cumprod (map (fadd (fz 1)) ar)) in
  let se := map (fmul (Fin initial_capital)) (cumprod (map (fadd (fz 1)) sr)) in
  mkSim (map date rs) cl fc ar pos sh sr ae se.

(* ================================================================== *)
(** ** run_backtest: trade identification (lines 60-175) *)

(** The loop's mutable variables. *)
Record SegState : Type := mkSeg {
  trades : list Trade;
  trade_start_idx : nat;
  trade_start_equity : float64;
  trade_type : float64;
  open_date : Z   (* the local variable [start_date] *)
}.

Definition type_of (trade_type : float64) : direction :=
  if fgtb trade_type (fz 0) then Long else Short.

Definition close_trade (st : SegState) (exit_equity : float64)
    (end_d : Z) (dur : nat) : Trade :=
  mkTrade (open_date st) end_d (type_of (trade_type st))
          (fsub (fdiv exit_equity (trade_start_equity st)) (fz 1))
          (fsub exit_equity (trade_start_equity st))
          dur.

(** [np.argmax] of a boolean array: the first [True], or 0 when there is none. *)
Fixpoint first_true (l : list bool) : option nat :=
  match l with
  | [] => None
  | b :: t => if b then Some 0%nat else option_map S (first_true t)
  end.

Definition argmax (l : list bool) : nat :=
  match first_true l with
  | Some i => i
  | None => 0%nat
  end.

Section Segmenter.

Variable equity_curve : column.
Variable dates_ : list Z.
Variable signs : column.

(** Body of [for i in range(first_idx + 1, len(df))]. *)
Definition seg_step (st : SegState) (i : nat) : SegState :=
  let current_sign := nth i signs NaN in
  if fneb current_sign (trade_type st) then
    let exit_equity := nth i equity_curve NaN in
    let t := close_trade st exit_equity (nth i dates_ 0%Z)
                         (i - trade_start_idx st) in
    if fneb current_sign (fz 0) then
      mkSeg (trades st ++ [t]) i exit_equity current_sign (nth i dates_ 0%Z)
    else
      mkSeg (trades st ++ [t]) (trade_start_idx st) (trade_start_equity st)
            (fz 0) (open_date st)
  else st.

(** "Close last open trade". *)
Definition seg_finish (st : SegState) : list Trade :=
  if fneb (trade_type st) (fz 0) then
    trades st ++
      [close_trade st (last equity_curve NaN) (last dates_ 0%Z)
                   (List.length signs - trade_start_idx st)]
  else trades st.

Definition segment_trades (initial_capital : Qc) : list Trade :=
  let first_idx := argmax (map (fun s => fneb s (fz 0)) signs) in
  if feqb (nth first_idx signs NaN) (fz 0) then []
  else
    let st0 :=
      mkSeg [] first_idx
            (if Nat.eqb first_idx 0 then Fin initial_capital
             else nth (first_idx - 1) equity_curve NaN)
            (nth first_idx signs NaN)
            (nth first_idx dates_ 0%Z) in
    seg_finish
      (fold_left seg_step
         (seq (first_idx + 1) (List.length signs - (first_idx + 1))) st0).

End Segmenter.

(* ================================================================== *)
(** ** run_backtest *)

Definition run_backtest (df : DataFrame) (initial_capital leverage : Qc)
  : result (SimFrame * list Trade) :=
  let cols := map lower (columns df) in
  if negb (has_column "close" cols) || negb (has_column "forecast" cols) then
    Raise (ValueError "CSV must contain 'close' and 'forecast' columns.")
  else
    let sorted := if has_column "date" cols then sort_values (rows df)
                  else rows df in
    let kept := filter notna sorted in
    match kept with
    | [] => Raise (ValueError "No valid forecast data found.")
    | _ :: _ =>
        let sim := engine kept initial_capital leverage in
        (* dates = df['date'].values *)
        if has_column "date" cols then
          Ok (sim,
              segment_trades (strategy_equity sim) (dates sim)
                             (map np_sign (forecasts sim)) initial_capital)
        else Raise (KeyError "date")
    end.

(* ================================================================== *)
(** ** pandas reductions (all skip missing cells) *)

Definition dropna (l : column) : column :=
  filter (fun x => negb (is_nan x)) l.

(** [Series.sum()]: 0 on an empty column. *)
Definition col_sum (l : column) : float64 :=
  fold_left fadd (dropna l) (fz 0).

(** [Series.prod()]: 1 on an empty column. *)
Definition col_prod (l : column) : float64 :=
  fold_left fmul (dropna l) (fz 1).

Definition count (l : column) : nat := List.length (dropna l).

(** [Series.mean()]: missing on an empty column. *)
Definition col_mean (l : column) : float64 :=
  match count l with
  | O => NaN
  | S _ => fdiv (col_sum l) (fz (Z.of_nat (count l)))
  end.

(** Sample variance, [ddof = 1]: missing when fewer than two cells. *)
Definition col_var (l : column) : float64 :=
  match count l with
  | O | S O => NaN
  | S (S _) =>
      let avg := col_mean l in
      fdiv (col_sum (map (fun x => fmul (fsub avg x) (fsub avg x)) (dropna l)))
           (fz (Z.of_nat (count l) - 1))
  end.

Definition fmin (x y : float64) : float64 := if fltb y x then y else x.
Definition fmax (x y : float64) : float64 := if fltb x y then y else x.

(** [Series.min()]: missing on an empty column. *)
Definition col_min (l : column) : float64 :=
  match dropna l with
  | [] => NaN
  | x :: t => fold_left fmin t x
  end.

(** [Series.cummax()] (skipna): a missing cell stays missing and does not
    touch the running maximum, which starts at [-inf]. *)
Fixpoint cummax_from (acc : float64) (l : column) : column :=
  match l with
  | [] => []
  | x :: t =>
      if is_nan x then NaN :: cummax_from acc t
      else fmax acc x :: cummax_from (fmax acc x) t
  end.

Definition cummax (l : column) : column := cummax_from NInf l.

(** Ascending order for [Series.quantile]. *)
Fixpoint insert_float (x : float64) (l : column) : column :=
  match l with
  | [] => [x]
  | h :: t => if fltb h x then h :: insert_float x t else x :: h :: t
  end.

Definition sort_floats (l : column) : column := fold_right insert_float [] l.

(** [Series.quantile(q)] with linear interpolation, [0 <= q <= 1]. *)
Definition quantile (q : Qc) (l : column) : float64 :=
  let v := sort_floats (dropna l) in
  match v with
  | [] => NaN
  | _ :: _ =>
      let pos := (zq (Z.of_nat (List.length v) - 1) * q)%Qc in
      let lo := (Qnum (this pos) / Z.pos (Qden (this pos)))%Z in
      let frac := (pos - zq lo)%Qc in
      let a := nth (Z.to_nat lo) v NaN in
      if Qceqb frac 0 then a
      else fadd a (fmul (fsub (nth (Z.to_nat lo + 1) v NaN) a) (Fin frac))
  end.

(* ================================================================== *)
(** ** Python values held by the metrics dictionaries *)

Inductive pyval : Type :=
| PyInt (n : Z)
| PyFloat (x : float64).

Definition as_float (v : pyval) : float64 :=
  match v with
  | PyInt n => fz n
  | PyFloat x => x
  end.

(** A dict literal: keys in insertion order. *)
Definition dict := list (string * pyval).

Fixpoint get (k : string) (d : dict) : option pyval :=
  match d with
  | [] => None
  | (k', v) :: t => if String.eqb k k' then Some v else get k t
  end.

Definition keys (d : dict) : list string := map fst d.

(** Python's [/] on Python numbers raises on a zero divisor; numpy's does
    not, and is [fdiv]. *)
Definition py_truediv (a b : float64) : result float64 :=
  if feqb b (fz 0) then Raise ZeroDivisionError else Ok (fdiv a b).

(* ================================================================== *)
(** ** calculate_metrics *)

Definition ANNUAL_FACTOR : Z := 756.

Definition total_return (returns : column) : float64 :=
  fsub (col_prod (map (fadd (fz 1)) returns)) (fz 1).

(** [len(returns) / ANNUAL_FACTOR]: Python division by a non-zero constant. *)
Definition n_years (returns : column) : float64 :=
  fdiv (fz (Z.of_nat (List.length returns))) (fz ANNUAL_FACTOR).

Definition mean_return (returns : column) : float64 :=
  fmul (col_mean returns) (fz ANNUAL_FACTOR).

Definition downside_returns (returns : column) : column :=
  filter (fun r => fltb r (fz 0)) returns.

Definition cum_returns (returns : column) : column :=
  cumprod (map (fadd (fz 1)) returns).

Definition drawdown (returns : column) : column :=
  let cr := cum_returns returns in
  let peak := cummax cr in
  zip_with (fun c p => fdiv (fsub c p) p) cr peak.

Definition max_drawdown (returns : column) : float64 :=
  col_min (drawdown returns).

Definition avg_drawdown (returns : column) : float64 :=
  col_mean (filter (fun d => fltb d (fz 0)) (drawdown returns)).

Definition cvar_95 (returns : column) : float64 :=
  quantile (Q2Qc (5 # 100)) returns.

Section Metrics.

(** numpy's square root and power: any implementation. *)
Variable np_sqrt : float64 -> float64.
Variable np_power : float64 -> float64 -> float64.

Definition col_std (l : column) : float64 := np_sqrt (col_var l).

Definition volatility (returns : column) : float64 :=
  fmul (col_std returns) (np_sqrt (fz ANNUAL_FACTOR)).

Definition downside_std (returns : column) : float64 :=
  fmul (col_std (downside_returns returns)) (np_sqrt (fz ANNUAL_FACTOR)).

Definition cagr (returns : column) : result pyval :=
  if fgtb (n_years returns) (fz 0) then
    e <- py_truediv (fz 1) (n_years returns) ;;
    Ok (PyFloat (fsub (np_power (fadd (fz 1) (total_return returns)) e) (fz 1)))
  else Ok (PyInt 0).

Definition sharpe (returns : column) (risk_free_rate : float64) : pyval :=
  if fneb (volatility returns) (fz 0) then
    PyFloat (fdiv (fsub (mean_return returns) risk_free_rate)
                  (volatility returns))
  else PyInt 0.

Definition sortino (returns : column) (risk_free_rate : float64) : pyval :=
  if fneb (downside_std returns) (fz 0) then
    PyFloat (fdiv (fsub (mean_return returns) risk_free_rate)
                  (downside_std returns))
  else PyInt 0.

Definition calmar (cagr_v : pyval) (returns : column) : pyval :=
  if fneb (max_drawdown returns) (fz 0) then
    PyFloat (fdiv (as_float cagr_v) (fabs (max_drawdown returns)))
  else PyInt 0.

Definition calculate_metrics (returns : column) (risk_free_rate : float64)
  : result dict :=
  c <- cagr returns ;;
  Ok [ ("Total Return", PyFloat (total_return returns));
       ("CAGR", c);
       ("Volatility", PyFloat (volatility returns));
       ("Sharpe Ratio", sharpe returns risk_free_rate);
       ("Sortino Ratio", sortino returns risk_free_rate);
       ("Calmar Ratio", calmar c returns);
       ("Max Drawdown", PyFloat (max_drawdown returns));
       ("Avg Drawdown", PyFloat (avg_drawdown returns));
       ("CVaR (95%)", PyFloat (cvar_95 returns)) ]%string.

(** *** The period metrics as the specification words them, with the
    annualization factor a parameter [periods_per_year] (spec 4.3). *)

Definition spec_years (periods_per_year : Z) (returns : column) : float64 :=
  fdiv (fz (Z.of_nat (List.length returns))) (fz periods_per_year).

Definition spec_mean_annualized (periods_per_year : Z) (returns : column)
  : float64 :=
  fmul (col_mean returns) (fz periods_per_year).

Definition spec_volatility (periods_per_year : Z) (returns : column)
  : float64 :=
  fmul (col_std returns) (np_sqrt (fz periods_per_year)).

Definition spec_cagr (periods_per_year : Z) (returns : column) : float64 :=
  let years := spec_years periods_per_year returns in
  if fleb years (fz 0) then fz 0
  else fsub (np_power (fadd (fz 1) (total_return returns))
                      (fdiv (fz 1) years)) (fz 1).

End Metrics.

(* ================================================================== *)
(** ** calculate_trade_metrics *)

Definition wins (trades_df : list Trade) : list Trade :=
  filter (fun t => fgtb (pnl t) (fz 0)) trades_df.

Definition losses (trades_df : list Trade) : list Trade :=
  filter (fun t => fltb (pnl t) (fz 0)) trades_df.

Definition gross_profit (trades_df : list Trade) : float64 :=
  col_sum (map pnl_abs (wins trades_df)).

Definition gross_loss (trades_df : list Trade) : float64 :=
  fabs (col_sum (map pnl_abs (losses trades_df))).

Definition profit_factor (trades_df : list Trade) : float64 :=
  if fneb (gross_loss trades_df) (fz 0) then
    fdiv (gross_profit trades_df) (gross_loss trades_df)
  else PInf.

Definition calculate_trade_metrics (trades_df : list Trade) : result dict :=
  match trades_df with
  | [] =>
      Ok [ ("Total Trades", PyInt 0);
           ("Win Rate", PyInt 0);
           ("Avg Trade", PyInt 0);
           ("Profit Factor", PyInt 0);
           ("Expectancy", PyInt 0) ]%string
  | _ :: _ =>
      let num_trades := Z.of_nat (List.length trades_df) in
      win_rate <- py_truediv (fz (Z.of_nat (List.length (wins trades_df))))
                             (fz num_trades) ;;
      let avg_win := match wins trades_df with
                     | [] => PyInt 0
                     | _ :: _ => PyFloat (col_mean (map pnl (wins trades_df)))
                     end in
      let avg_loss := match losses trades_df with
                      | [] => PyInt 0
                      | _ :: _ => PyFloat (col_mean (map pnl (losses trades_df)))
                      end in
      Ok [ ("Total Trades", PyInt num_trades);
           ("Win Rate", PyFloat win_rate);
           ("Avg Trade", PyFloat (col_mean (map pnl trades_df)));
           ("Avg Win", avg_win);
           ("Avg Loss", avg_loss);
           ("Avg Duration",
             PyFloat (col_mean (map (fun t => fz (Z.of_nat (duration t)))
                                    trades_df)));
           ("Profit Factor", PyFloat (profit_factor trades_df)) ]%string
  end.

(** The specification's wording of gross loss (4.3): the sum of the
    strictly negative [pnl_abs] values. *)
Definition spec_gross_loss (trades_df : list Trade) : float64 :=
  col_sum (filter (fun x => fltb x (fz 0)) (map pnl_abs trades_df)).

(* ================================================================== *)
(** * Inputs used in the examples *)

Definition qf (n d : Z) : float64 := Fin (zq n / zq d).

Definition table (cols : list string) (l : list (Z * Z * float64)) : DataFrame :=
  mkDF cols (map (fun '(d, c, f) => mkRow d (zq c) f) l).

(** The scenario of spec section 8, with a date column holding the period
    indices. *)
Definition scenario_df : DataFrame :=
  table ["date"; "close"; "forecast"]%string
        [ (0, 100, fz 10); (1, 101, fz 10); (2, 102, fz 10);
          (3, 99, fz (-10)); (4, 100, fz (-10)) ]%Z.

(** Long, one flat period, Long again. *)
Definition flat_gap_df : DataFrame :=
  table ["date"; "close"; "forecast"]%string
        [ (0, 100, fz 10); (1, 101, fz 0); (2, 102, fz 10) ]%Z.

(** A table with the two required columns and nothing else. *)
Definition no_date_df : DataFrame :=
  table ["close"; "forecast"]%string [ (0, 100, fz 10); (0, 101, fz 10) ]%Z.

(** A table whose time column is labelled [timestamp], one of the labels
    [load_data] parses as dates. *)
Definition timestamp_df : DataFrame :=
  table ["timestamp"; "close"; "forecast"]%string
        [ (0, 100, fz 10); (1, 101, fz (-10)) ]%Z.

(** A missing forecast between two defined ones. *)
Definition mid_gap_df : DataFrame :=
  table ["date"; "close"; "forecast"]%string
        [ (0, 100, fz 10); (1, 50, NaN); (2, 110, fz 10) ]%Z.

(** A price that touches zero twice, with a position at every period. *)
Definition zero_price_df : DataFrame :=
  table ["date"; "close"; "forecast"]%string
        [ (0, 1, fz (-10)); (1, 0, fz 10); (2, 1, fz (-10));
          (3, 0, fz (-10)); (4, 1, fz (-10)) ]%Z.

(** A run on negative capital: one Long trade over a falling price. *)
Definition falling_df : DataFrame :=
  table ["date"; "close"; "forecast"]%string
        [ (0, 100, fz 10); (1, 99, fz 10) ]%Z.

(** The scenario with the forecast of period 2 changed from 10 to -5. *)
Definition scenario_changed_df : DataFrame :=
  table ["date"; "close"; "forecast"]%string
        [ (0, 100, fz 10); (1, 101, fz 10); (2, 102, fz (-5));
          (3, 99, fz (-10)); (4, 100, fz (-10)) ]%Z.

(** [x] printed with five decimals is [n / 100000]. *)
Definition rounds_to5 (x : float64) (n : Z) : bool :=
  match x with
  | Fin q =>
      negb (Qcltb (q * zq 200000) (zq (2 * n - 1))) &&
      negb (Qcltb (zq (2 * n + 1)) (q * zq 200000))
  | _ => false
  end.

Fixpoint all2 {A B} (p : A -> B -> bool) (l : list A) (m : list B) : bool :=
  match l, m with
  | [], [] => true
  | a :: l', b :: m' => p a b && all2 p l' m'
  | _, _ => false
  end.

(** The expectations of the concrete scenario, for given five-decimal
    asset and strategy returns. *)
Definition scenario_expect (ar sr : list Z) : Prop :=
  match run_backtest scenario_df (zq 1000) (zq 1) with
  | Ok (s, ts) =>
      all2 rounds_to5 (asset_return s) ar = true /\
      shifted_position s = map fz [0; 1; 1; 1; -1]%Z /\
      all2 rounds_to5 (strategy_return s) sr = true /\
      exists t1 t2,
        ts = [t1; t2] /\
        type t1 = Long /\ start_date t1 = 0%Z /\ end_date t1 = 3%Z /\
        type t2 = Short /\ start_date t2 = 3%Z /\ end_date t2 = 4%Z /\
        pnl_abs t2 = fsub (last (strategy_equity s) NaN)
                          (nth 3 (strategy_equity s) NaN)
  | Raise _ => False
  end.

(** The plain sum of the ledger's [pnl_abs] column. *)
Definition ledger_sum (ts : list Trade) : float64 :=
  fold_left fadd (map pnl_abs ts) (fz 0).

(** Index of the first period whose forecast sign is not zero. *)
Definition first_invested (s : SimFrame) : option nat :=
  first_true (map (fun f => fneb (np_sign f) (fz 0)) (forecasts s)).

Definition summary (t : Trade) : Z * Z * direction * nat :=
  (start_date t, end_date t, type t, duration t).

(* ================================================================== *)
(** * A computable instance of numpy's root and power

    Truncated to 15 decimal places; used to evaluate the metrics on concrete
    series.  The theorems on the metrics hold for every instance. *)

(** Largest [r] of at most [bits] bits above [acc] with [r ^ k <= n]. *)
Fixpoint iroot_bits (k : Z) (n : Z) (bits : nat) (acc : Z) : Z :=
  match bits with
  | O => acc
  | S b =>
      let c := (acc + 2 ^ Z.of_nat b)%Z in
      if (c ^ k <=? n)%Z then iroot_bits k n b c else iroot_bits k n b acc
  end.

Definition iroot (k : positive) (n : Z) : Z :=
  iroot_bits (Z.pos k) n (Z.to_nat (Z.log2_up (n + 1))) 0.

(** [k]-th root of a non-negative rational. *)
Definition root_trunc (k : positive) (q : Qc) : Qc :=
  let scaled := (Qnum q * 10 ^ (15 * Z.pos k) / Z.pos (Qden q))%Z in
  Q2Qc (Qmake (iroot k scaled) (10 ^ 15)%positive).

Definition sqrt_model (x : float64) : float64 :=
  match x with
  | Fin q => if Qcltb q 0 then NaN else Fin (root_trunc 2 q)
  | PInf => PInf
  | NInf | NaN => NaN
  end.

(** [b ** (n / d)] for finite operands; a negative base with a fractional
    exponent is invalid. *)
Definition power_model (x y : float64) : float64 :=
  match x, y with
  | Fin b, Fin e =>
      let n := Qnum e in
      let d := Qden e in
      if Qcltb b 0 && negb (Pos.eqb d 1) then NaN
      else
        let r := match d with
                 | xH => b
                 | _ => root_trunc d b
                 end in
        let p := Qcpower r (Z.to_nat (Z.abs n)) in
        if (n <? 0)%Z then fdiv (fz 1) (Fin p) else Fin p
  | _, _ => NaN
  end.

(* ================================================================== *)
(** * Predicates used in the statements *)

Definition required_columns (df : DataFrame) : bool :=
  has_column "close" (map lower (columns df)) &&
  has_column "forecast" (map lower (columns df)).

Definition date_column (df : DataFrame) : bool :=
  has_column "date" (map lower (columns df)).

Definition some_forecast (df : DataFrame) : bool := existsb notna (rows df).

(** The rows the engine runs on. *)
Definition kept (df : DataFrame) : list Row :=
  filter notna (if date_column df then sort_values (rows df) else rows df).

(** Rows in date order. *)
Definition date_le (a b : Row) : Prop := (date a <= date b)%Z.

(** A value that is neither infinite nor missing. *)
Definition finite (x : float64) : Prop := is_fin x = true.

(** What the trade loop maintains while no period is flat: a trade is open,
    and the ledger so far sums to the open trade's basis minus the first
    basis [basis0]. *)
Definition ledger_inv (basis0 : Qc) (st : SegState) : Prop :=
  fneb (trade_type st) (fz 0) = true /\
  exists b, trade_start_equity st = Fin b /\
            ledger_sum (trades st) = Fin (b - basis0).

(* ================================================================== *)
(** ** app.py: performance by market regime (lines 381-417) *)

Inductive regime : Type := StrongBull | Bull | Sideways | Bear | StrongBear.

Definition regime_eqb (a b : regime) : bool :=
  match a, b with
  | StrongBull, StrongBull | Bull, Bull | Sideways, Sideways
  | Bear, Bear | StrongBear, StrongBear => true
  | _, _ => false
  end.

(** How bullish a regime is, for comparing two of them. *)
Definition bullishness (g : regime) : nat :=
  match g with
  | StrongBear => 0
  | Bear => 1
  | Sideways => 2
  | Bull => 3
  | StrongBull => 4
  end.

Definition classify_regime (ret : float64) : regime :=
  let annualized := fmul ret (fz 756) in
  if fgtb annualized (qf 30 100) then StrongBull
  else if fgtb annualized (qf 10 100) then Bull
  else if fgtb annualized (qf (-10) 100) then Sideways
  else if fgtb annualized (qf (-30) 100) then Bear
  else StrongBear.

(** Mean of a full window; pandas' rolling functions read an infinite cell
    as a missing one, and a window with a missing cell has too few
    observations. *)
Definition window_mean (w : nat) (vals : column) : float64 :=
  if forallb is_fin vals then
    fdiv (fold_left fadd vals (fz 0)) (fz (Z.of_nat w))
  else NaN.

(** [Series.rolling(window=w).mean()]: missing until [w] cells are seen. *)
Definition rolling_mean (w : nat) (l : column) : column :=
  map (fun i =>
         if (S i <? w)%nat then NaN
         else window_mean w (firstn w (skipn (S i - w) l)))
      (seq 0 (List.length l)).

Definition rolling_window : nat := 21.

(** The column [df_regime['regime']]. *)
Definition regime_labels (s : SimFrame) : list regime :=
  map classify_regime (rolling_mean rolling_window (asset_return s)).

(** [col[labels == g]]. *)
Definition select_regime (g : regime) (labels : list regime) (col : column)
  : column :=
  map snd (filter (fun p => regime_eqb (fst p) g) (combine labels col)).

Record RegimeRow : Type := mkRegimeRow {
  Regime : regime;
  Strategy : float64;
  Asset : float64;
  Periods : nat
}.

Definition regime_performance (s : SimFrame) : list RegimeRow :=
  let labels := regime_labels s in
  flat_map
    (fun g =>
       let n := List.length (filter (fun x => regime_eqb x g) labels) in
       match n with
       | O => []
       | S _ =>
           [mkRegimeRow g
              (total_return (select_regime g labels (strategy_return s)))
              (total_return (select_regime g labels (asset_return s)))
              n]
       end)
    [StrongBull; Bull; Sideways; Bear; StrongBear].

(** The cell operation of [pct_change]. *)
Definition ratio_minus_one (x p : float64) : float64 :=
  fsub (fdiv x p) (fz 1).

(* ================================================================== *)
(** ** Counting on the sign column *)

(** Indices [i] of [a .. a + n - 1] at which the sign differs from the
    sign of the period before. *)
Definition sign_changes (signs : column) (a n : nat) : nat :=
  List.length
    (filter (fun i => fneb (nth i signs NaN) (nth (i - 1) signs NaN))
            (seq a n)).

Definition sum_nat (l : list nat) : nat := fold_right Nat.add 0%nat l.

(** What the trade loop maintains while no period is flat, on the durations
    and the dates of the records; [i0] is the first invested index and [a]
    the next index to visit. *)
Definition span_inv (dates_ : list Z) (i0 : nat) (st : SegState) (a : nat)
  : Prop :=
  fneb (trade_type st) (fz 0) = true /\
  (i0 <= trade_start_idx st < a)%nat /\
  sum_nat (map duration (trades st)) = (trade_start_idx st - i0)%nat /\
  map start_date (trades st) ++ [open_date st] =
    nth i0 dates_ 0%Z :: map end_date (trades st).

(** The compounded value of a column of fractional returns: the product
    of [1 + r]. *)
Definition compounded (l : column) : float64 :=
  fold_left fmul (map (fadd (fz 1)) l) (fz 1).

(** A value that is finite and not zero. *)
Definition finite_nonzero (x : float64) : Prop :=
  exists q, x = Fin q /\ q <> 0.

(** What the trade loop maintains while no period is flat, on the fractional
    returns of the records: they compound to the open trade's basis over the
    first basis [basis0]. *)
Definition pnl_inv (basis0 : Qc) (st : SegState) : Prop :=
  fneb (trade_type st) (fz 0) = true /\
  exists b, trade_start_equity st = Fin b /\ b <> 0 /\
            compounded (map pnl (trades st)) = Fin (b / basis0).

(* ================================================================== *)
(** * Basic facts on the number model *)

(** Equalities between computed values: the rationals are compared by
    their canonical fractions. *)
Ltac qc_equal :=
  lazymatch goal with
  | |- @eq Qc _ _ => apply Qc_is_canon; reflexivity
  | |- _ => first [reflexivity | f_equal; qc_equal]
  end.

Lemma Qceqb_eq (a b : Qc) : Qceqb a b = true <-> a = b.
Proof.
  unfold Qceqb. rewrite Qceq_alt.
  destruct (Qccompare a b); split; intros H; try reflexivity; discriminate.
Qed.

Lemma Qceqb_refl (a : Qc) : Qceqb a a = true.
Proof. now apply Qceqb_eq. Qed.

Lemma Qceqb_neq (a b : Qc) : Qceqb a b = false <-> a <> b.
Proof.
  rewrite <- Qceqb_eq. destruct (Qceqb a b); split; intros H;
    try reflexivity; try discriminate; try (intros E; discriminate).
  now elim H.
Qed.

Lemma zq_inj (a b : Z) : zq a = zq b -> a = b.
Proof.
  unfold zq. intros H. apply Q2Qc_eq_iff in H.
  unfold Qeq, inject_Z in H. simpl in H. lia.
Qed.

Lemma zq_pos_nonzero (p : positive) : Qceqb (zq (Z.pos p)) 0 = false.
Proof.
  apply Qceqb_neq. intros H. change (0 : Qc) with (zq 0) in H.
  apply zq_inj in H. discriminate.
Qed.

Lemma py_truediv_len {A} (x : float64) (a : A) (l : list A) :
  py_truediv x (fz (Z.of_nat (List.length (a :: l)))) =
  Ok (fdiv x (fz (Z.of_nat (List.length (a :: l))))).
Proof.
  unfold py_truediv, fz, feqb. simpl List.length.
  rewrite Nat2Z.inj_succ, <- Z.add_1_r.
  destruct (Z.of_nat (List.length l)) eqn:E; try lia;
    simpl Z.add; now rewrite zq_pos_nonzero.
Qed.

(* ================================================================== *)
(** * Column lengths *)

Lemma length_zip_with {A B C} (f : A -> B -> C) (l : list A) (m : list B) :
  List.length l = List.length m ->
  List.length (zip_with f l m) = List.length l.
Proof.
  revert m. induction l as [|a l IH]; intros [|b m] H; simpl in *;
    try discriminate; auto.
Qed.

Lemma length_shift_from (p : float64) (l : column) :
  List.length (shift_from p l) = List.length l.
Proof. revert p. induction l; intros; simpl; auto. Qed.

Lemma length_fillna (v : float64) (l : column) :
  List.length (fillna v l) = List.length l.
Proof. apply length_map. Qed.

Lemma length_cumprod_from (acc : float64) (l : column) :
  List.length (cumprod_from acc l) = List.length l.
Proof.
  revert acc. induction l as [|x l IH]; intros; simpl; auto.
  destruct (is_nan x); simpl; auto.
Qed.

Lemma length_pct_change (l : column) :
  List.length (pct_change l) = List.length l.
Proof.
  unfold pct_change. apply length_zip_with.
  unfold shift. now rewrite length_shift_from.
Qed.

Lemma length_strategy_return rs ic lev :
  List.length (strategy_return (engine rs ic lev)) = List.length rs.
Proof.
  simpl. rewrite length_zip_with;
    rewrite ?length_fillna, ?length_pct_change; unfold shift;
    rewrite ?length_shift_from, ?length_map; reflexivity.
Qed.

Lemma length_strategy_equity rs ic lev :
  List.length (strategy_equity (engine rs ic lev)) = List.length rs.
Proof.
  unfold engine, strategy_equity, cumprod.
  rewrite length_map, length_cumprod_from, length_map.
  apply (length_strategy_return rs ic lev).
Qed.

(* ================================================================== *)
(** * When run_backtest raises and when it returns *)

Lemma filter_nil_existsb {A} (p : A -> bool) (l : list A) :
  filter p l = [] <-> existsb p l = false.
Proof.
  induction l as [|a l IH]; simpl; [tauto|].
  destruct (p a); simpl; [split; discriminate | exact IH].
Qed.

Lemma In_insert_by_date r x l :
  In x (insert_by_date r l) <-> x = r \/ In x l.
Proof.
  induction l as [|h t IH]; simpl.
  - intuition.
  - destruct (date r <=? date h)%Z; simpl; [intuition|].
    rewrite IH. intuition.
Qed.

Lemma In_sort_values x l : In x (sort_values l) <-> In x l.
Proof.
  induction l as [|a l IH]; simpl; [tauto|].
  rewrite In_insert_by_date, IH. intuition.
Qed.

Lemma existsb_sort_values p l :
  existsb p (sort_values l) = existsb p l.
Proof.
  apply eq_true_iff_eq. rewrite !existsb_exists.
  split; intros [x [Hx Hp]]; exists x; split; auto;
    now apply In_sort_values.
Qed.

Lemma kept_nil df : kept df = [] <-> some_forecast df = false.
Proof.
  unfold kept, some_forecast. rewrite filter_nil_existsb.
  destruct (date_column df); [rewrite existsb_sort_values|]; tauto.
Qed.

(** [run_backtest] by cases on the table. *)
Lemma run_backtest_cases df ic lev :
  run_backtest df ic lev =
  if negb (required_columns df) then
    Raise (ValueError "CSV must contain 'close' and 'forecast' columns.")
  else if negb (some_forecast df) then
    Raise (ValueError "No valid forecast data found.")
  else if negb (date_column df) then Raise (KeyError "date")
  else
    let sim := engine (kept df) ic lev in
    Ok (sim, segment_trades (strategy_equity sim) (dates sim)
                            (map np_sign (forecasts sim)) ic).
Proof.
  unfold run_backtest, required_columns.
  rewrite negb_andb.
  destruct (negb (has_column "close" _) || negb (has_column "forecast" _));
    [reflexivity|].
  fold (date_column df). fold (kept df).
  destruct (kept df) eqn:K.
  - apply kept_nil in K. now rewrite K.
  - assert (some_forecast df = true) as ->.
    { destruct (some_forecast df) eqn:E; [reflexivity|].
      apply kept_nil in E. congruence. }
    simpl. now destruct (date_column df).
Qed.

(** A [ValueError] is raised exactly when a required column is missing or
    no row has a forecast. *)
Lemma run_backtest_value_error df ic lev :
  (exists msg, run_backtest df ic lev = Raise (ValueError msg)) <->
  required_columns df = false \/ some_forecast df = false.
Proof.
  rewrite run_backtest_cases.
  destruct (required_columns df), (some_forecast df), (date_column df);
    simpl; split; try (intros [msg H]; discriminate); intros H;
    try (destruct H; discriminate); eauto.
Qed.

(** It returns exactly when, besides, the table has a ['date'] column. *)
Lemma run_backtest_returns df ic lev :
  (exists out, run_backtest df ic lev = Ok out) <->
  required_columns df = true /\ some_forecast df = true /\
  date_column df = true.
Proof.
  rewrite run_backtest_cases.
  destruct (required_columns df), (some_forecast df), (date_column df);
    simpl; split; try (intros [out H]; discriminate); intros H;
    try (destruct H as (? & ? & ?); discriminate); eauto.
Qed.

(** Without a ['date'] column a table that passes both validations is
    rejected by the column lookup. *)
Lemma run_backtest_without_date df ic lev :
  required_columns df = true -> some_forecast df = true ->
  date_column df = false ->
  run_backtest df ic lev = Raise (KeyError "date").
Proof. intros H1 H2 H3. rewrite run_backtest_cases, H1, H2, H3. reflexivity. Qed.

(* ================================================================== *)
(** * The concrete scenario *)

(** C3, as stated, fails: the asset return of period 1 is
    [101/100 - 1 = 0.01000], not [0.00990]. *)
Lemma scenario_as_stated_fails :
  ~ scenario_expect [0; 990; 990; -2941; 1010]%Z
                    [0; 990; 990; -2941; -1010]%Z.
Proof.
  unfold scenario_expect. vm_compute. intros [H _]. discriminate H.
Qed.

(** C3 (amended): on close = [100,101,102,99,100], forecast =
    [10,10,10,-10,-10], dates 0..4, leverage 1 and capital 1000,
    [run_backtest] gives asset_return = [0, .01000, .00990, -.02941, .01010],
    shifted_position = [0,1,1,1,-1], strategy_return =
    [0, .01000, .00990, -.02941, -.01010] and exactly two trades: a Long
    from index 0 to the flip at index 3 and a Short from index 3 closed at
    index 4 on the final equity. *)
Theorem scenario_amended :
  scenario_expect [0; 1000; 990; -2941; 1010]%Z
                  [0; 1000; 990; -2941; -1010]%Z.
Proof.
  unfold scenario_expect. vm_compute.
  repeat split.
  eexists; eexists. repeat split.
Qed.

(* ================================================================== *)
(** * Re-entry after a flat period *)

(** C1: on forecast = [10, 0, 10] the loop closes a "trade" at the
    Flat-to-Long transition of index 2: a Short record that runs from the
    start of the first trade to index 2, between the Long of periods 0-1 and
    the Long opened at index 2. *)
Theorem flat_gap_emits_extra_trade :
  exists s ts,
    run_backtest flat_gap_df (zq 1000) (zq 1) = Ok (s, ts) /\
    map np_sign (forecasts s) = [fz 1; fz 0; fz 1] /\
    map summary ts =
      [ (0, 1, Long, 1%nat); (0, 2, Short, 2%nat); (2, 2, Long, 1%nat) ]%Z.
Proof.
  eexists; eexists. split; [vm_compute; reflexivity|].
  split; vm_compute; reflexivity.
Qed.

(* ================================================================== *)
(** * Tables without a date column *)

(** C4: a table with only the close and forecast columns passes both
    validations and is then rejected with [KeyError('date')]. *)
Theorem no_date_column_raises :
  required_columns no_date_df = true /\
  some_forecast no_date_df = true /\
  run_backtest no_date_df (zq 10000) (zq 1) = Raise (KeyError "date").
Proof. repeat split. Qed.

(** C8: a table with close, forecast and a [timestamp] column, every
    forecast defined, neither returns nor raises the validation error. *)
Theorem valid_input_raises_key_error :
  required_columns timestamp_df = true /\
  some_forecast timestamp_df = true /\
  run_backtest timestamp_df (zq 10000) (zq 1) = Raise (KeyError "date") /\
  (forall out, run_backtest timestamp_df (zq 10000) (zq 1) <> Ok out) /\
  (forall msg,
     run_backtest timestamp_df (zq 10000) (zq 1) <> Raise (ValueError msg)).
Proof.
  repeat split; intros x H; vm_compute in H; discriminate H.
Qed.

(* ================================================================== *)
(** * Trade metrics: the two key sets *)

(** C9: on an empty ledger the mapping has exactly the keys Total Trades,
    Win Rate, Avg Trade, Profit Factor, Expectancy, all 0; on a non-empty one
    it has exactly Total Trades, Win Rate, Avg Trade, Avg Win, Avg Loss,
    Avg Duration, Profit Factor, and no Expectancy. *)
Theorem trade_metrics_key_sets :
  calculate_trade_metrics [] =
    Ok [ ("Total Trades", PyInt 0); ("Win Rate", PyInt 0);
         ("Avg Trade", PyInt 0); ("Profit Factor", PyInt 0);
         ("Expectancy", PyInt 0) ]%string /\
  forall t ts, exists d,
    calculate_trade_metrics (t :: ts) = Ok d /\
    keys d = [ "Total Trades"; "Win Rate"; "Avg Trade"; "Avg Win";
               "Avg Loss"; "Avg Duration"; "Profit Factor" ]%string /\
    get "Expectancy" d = None.
Proof.
  split; [reflexivity|].
  intros t ts. unfold calculate_trade_metrics.
  rewrite py_truediv_len. simpl bind.
  eexists. split; [reflexivity|]. split; reflexivity.
Qed.

(* ================================================================== *)
(** * Period metrics *)

Lemma Qccompare_antisym (a b : Qc) :
  Qccompare b a = CompOpp (Qccompare a b).
Proof. unfold Qccompare. now rewrite <- Qcompare_antisym. Qed.

Lemma fltb_fin_fleb (a b : Qc) :
  fltb (Fin a) (Fin b) = negb (fleb (Fin b) (Fin a)).
Proof.
  unfold fleb, fltb, feqb, Qcltb, Qceqb.
  rewrite (Qccompare_antisym a b).
  now destruct (Qccompare a b).
Qed.

Lemma fltb_fin_feqb (a b : Qc) :
  fltb (Fin a) (Fin b) = true -> feqb (Fin b) (Fin a) = false.
Proof.
  rewrite fltb_fin_fleb. unfold fleb.
  destruct (fltb (Fin b) (Fin a)), (feqb (Fin b) (Fin a)); simpl; congruence.
Qed.

Lemma n_years_fin (returns : column) :
  n_years returns =
  Fin (zq (Z.of_nat (List.length returns)) / zq ANNUAL_FACTOR).
Proof. reflexivity. Qed.

Lemma cagr_returns np_power (returns : column) :
  exists c, cagr np_power returns = Ok c /\
            as_float c = spec_cagr np_power ANNUAL_FACTOR returns.
Proof.
  unfold cagr, spec_cagr, spec_years. fold (n_years returns).
  rewrite n_years_fin. unfold fgtb, fz.
  rewrite fltb_fin_fleb.
  destruct (fleb _ _) eqn:E; simpl negb; cbv iota.
  - exists (PyInt 0). split; reflexivity.
  - unfold py_truediv, fz.
    rewrite fltb_fin_feqb.
    + eexists. split; reflexivity.
    + rewrite fltb_fin_fleb. unfold fz in E. now rewrite E.
Qed.



(* ================================================================== *)
(** * Degenerate metrics *)

Lemma calculate_metrics_returns np_sqrt np_power returns rf :
  exists c,
    cagr np_power returns = Ok c /\
    calculate_metrics np_sqrt np_power returns rf =
    Ok [ ("Total Return", PyFloat (total_return returns));
         ("CAGR", c);
         ("Volatility", PyFloat (volatility np_sqrt returns));
         ("Sharpe Ratio", sharpe np_sqrt returns rf);
         ("Sortino Ratio", sortino np_sqrt returns rf);
         ("Calmar Ratio", calmar c returns);
         ("Max Drawdown", PyFloat (max_drawdown returns));
         ("Avg Drawdown", PyFloat (avg_drawdown returns));
         ("CVaR (95%)", PyFloat (cvar_95 returns)) ]%string.
Proof.
  destruct (cagr_returns np_power returns) as [c [Hc _]].
  exists c. split; [exact Hc|].
  unfold calculate_metrics. now rewrite Hc.
Qed.

Lemma cagr_zero_years np_power returns :
  fleb (n_years returns) (fz 0) = true ->
  cagr np_power returns = Ok (PyInt 0).
Proof.
  unfold cagr, fgtb. rewrite n_years_fin. unfold fz.
  rewrite fltb_fin_fleb. now intros ->.
Qed.

Lemma calculate_trade_metrics_returns (ts : list Trade) :
  exists d, calculate_trade_metrics ts = Ok d /\
            (ts <> [] ->
             get "Profit Factor" d = Some (PyFloat (profit_factor ts))).
Proof.
  destruct ts as [|t ts].
  - eexists. split; [reflexivity|]. intros H. now elim H.
  - unfold calculate_trade_metrics. rewrite py_truediv_len. simpl bind.
    eexists. split; [reflexivity|]. intros _. reflexivity.
Qed.




(* ================================================================== *)
(** * Rows without a forecast *)

Lemma insert_by_date_front r l :
  Forall (date_le r) l -> insert_by_date r l = r :: l.
Proof.
  intros H. destruct l as [|h t]; [reflexivity|].
  simpl. inversion H as [|? ? Hh _]; subst.
  unfold date_le in Hh. apply Z.leb_le in Hh. now rewrite Hh.
Qed.

Lemma insert_by_date_sorted r l :
  StronglySorted date_le l -> StronglySorted date_le (insert_by_date r l).
Proof.
  induction 1 as [|h t Hs IH Hf]; simpl.
  - repeat constructor.
  - destruct (date r <=? date h)%Z eqn:E.
    + apply Z.leb_le in E. constructor; [now constructor|].
      constructor; [exact E|].
      eapply Forall_impl; [|exact Hf].
      unfold date_le. intros; lia.
    + apply Z.leb_gt in E. constructor; [exact IH|].
      apply Forall_forall. intros x Hx.
      apply In_insert_by_date in Hx. destruct Hx as [->|Hx].
      * unfold date_le; lia.
      * rewrite Forall_forall in Hf. now apply Hf.
Qed.

Lemma sort_values_sorted l : StronglySorted date_le (sort_values l).
Proof.
  induction l as [|a l IH]; simpl; [constructor|].
  now apply insert_by_date_sorted.
Qed.

Lemma Forall_filter {A} (P : A -> Prop) (p : A -> bool) (l : list A) :
  Forall P l -> Forall P (filter p l).
Proof.
  rewrite !Forall_forall. intros H x Hx. apply filter_In in Hx. now apply H.
Qed.

Lemma filter_insert_by_date (p : Row -> bool) r l :
  StronglySorted date_le l ->
  filter p (insert_by_date r l) =
  if p r then insert_by_date r (filter p l) else filter p l.
Proof.
  induction 1 as [|h t Hs IH Hf].
  - simpl. now destruct (p r).
  - simpl insert_by_date. destruct (date r <=? date h)%Z eqn:E.
    + change (filter p (r :: h :: t))
        with (if p r then r :: filter p (h :: t) else filter p (h :: t)).
      destruct (p r); [|reflexivity].
      symmetry. apply insert_by_date_front. apply Forall_filter.
      apply Z.leb_le in E. constructor; [exact E|].
      eapply Forall_impl; [|exact Hf]. unfold date_le. intros; lia.
    + simpl filter. destruct (p h).
      * rewrite IH. destruct (p r); [|reflexivity].
        simpl. now rewrite E.
      * exact IH.
Qed.

Lemma filter_sort_values (p : Row -> bool) l :
  filter p (sort_values l) = sort_values (filter p l).
Proof.
  induction l as [|a l IH]; [reflexivity|].
  simpl. rewrite filter_insert_by_date by apply sort_values_sorted.
  rewrite IH. now destruct (p a).
Qed.

Lemma length_insert_by_date r l :
  List.length (insert_by_date r l) = S (List.length l).
Proof.
  induction l as [|h t IH]; simpl; [reflexivity|].
  destruct (date r <=? date h)%Z; simpl; now rewrite ?IH.
Qed.

Lemma length_sort_values l : List.length (sort_values l) = List.length l.
Proof.
  induction l as [|a l IH]; simpl; [reflexivity|].
  now rewrite length_insert_by_date, IH.
Qed.

Lemma filter_drop_middle {A} (p : A -> bool) pre r post :
  p r = false -> filter p (pre ++ r :: post) = filter p (pre ++ post).
Proof. intros H. rewrite !filter_app. simpl. now rewrite H. Qed.

Lemma filter_keep_middle {A} (p : A -> bool) pre r post :
  p r = true ->
  filter p (pre ++ r :: post) = filter p pre ++ r :: filter p post.
Proof. intros H. rewrite filter_app. simpl. now rewrite H. Qed.

Lemma kept_drop_missing cols pre r post :
  is_nan (forecast r) = true ->
  kept (mkDF cols (pre ++ r :: post)) = kept (mkDF cols (pre ++ post)).
Proof.
  intros H. assert (notna r = false) as Hr by (unfold notna; now rewrite H).
  unfold kept, date_column. simpl rows. simpl columns.
  destruct (has_column "date" (map lower cols)).
  - rewrite !filter_sort_values. f_equal. now apply filter_drop_middle.
  - now apply filter_drop_middle.
Qed.

Lemma nth_error_zip_with {A B C} (f : A -> B -> C) l m k :
  nth_error (zip_with f l m) k =
  match nth_error l k, nth_error m k with
  | Some a, Some b => Some (f a b)
  | _, _ => None
  end.
Proof.
  revert m k. induction l as [|a l IH]; intros [|b m] [|k]; simpl;
    try reflexivity.
  - now destruct (nth_error l k).
  - apply IH.
Qed.

Lemma nth_error_shift_from l : forall a k x y,
  nth_error l k = Some x -> nth_error l (S k) = Some y ->
  nth_error (shift_from a l) (S k) = Some x.
Proof.
  induction l as [|h t IH]; intros a k x y Hx Hy; [discriminate|].
  destruct k as [|k]; simpl in *.
  - inversion Hx; subst. destruct t; [discriminate|reflexivity].
  - eapply IH; eauto.
Qed.

Lemma asset_return_adjacent rs ic lev k p n :
  nth_error (closes (engine rs ic lev)) k = Some (Fin p) ->
  nth_error (closes (engine rs ic lev)) (S k) = Some (Fin n) ->
  p <> 0 ->
  nth_error (asset_return (engine rs ic lev)) (S k) = Some (Fin (n / p - 1)).
Proof.
  unfold engine. cbn [closes asset_return]. intros Hp Hn Hz.
  unfold fillna. rewrite nth_error_map. unfold pct_change.
  rewrite nth_error_zip_with, Hn.
  unfold shift. rewrite (nth_error_shift_from _ NaN k _ _ Hp Hn).
  simpl. apply Qceqb_neq in Hz. now rewrite Hz.
Qed.



(** On that table two rows are retained and the second asset return is
    [110 / 100 - 1]. *)
Example mid_gap_returns :
  exists s ts,
    run_backtest mid_gap_df (zq 1000) (zq 1) = Ok (s, ts) /\
    closes s = [fz 100; fz 110] /\
    asset_return s = [fz 0; qf 1 10].
Proof.
  do 2 eexists. split; [vm_compute; reflexivity|].
  split; vm_compute; qc_equal.
Qed.

(* ================================================================== *)
(** * No lookahead *)

Section OneRowChanged.

Variables r1 r2 : Row.
Hypothesis same_date : date r1 = date r2.

Lemma insert_beside_changed_row x a b :
  exists a' b',
    insert_by_date x (a ++ r1 :: b) = a' ++ r1 :: b' /\
    insert_by_date x (a ++ r2 :: b) = a' ++ r2 :: b'.
Proof.
  induction a as [|h a IH]; simpl.
  - rewrite <- same_date. destruct (date x <=? date r1)%Z.
    + exists [x], b. split; reflexivity.
    + exists [], (insert_by_date x b). split; reflexivity.
  - destruct (date x <=? date h)%Z.
    + exists (x :: h :: a), b. split; reflexivity.
    + destruct IH as (a' & b' & H1 & H2).
      exists (h :: a'), b'. simpl. now rewrite H1, H2.
Qed.

Lemma insert_changed_row l :
  exists a b,
    insert_by_date r1 l = a ++ r1 :: b /\
    insert_by_date r2 l = a ++ r2 :: b.
Proof.
  induction l as [|h t IH]; simpl.
  - exists [], []. split; reflexivity.
  - rewrite <- same_date. destruct (date r1 <=? date h)%Z.
    + exists [], (h :: t). split; reflexivity.
    + destruct IH as (a & b & H1 & H2).
      exists (h :: a), b. simpl. now rewrite H1, H2.
Qed.

(** Sorting puts the changed row at the same place in both tables. *)
Lemma sort_values_changed_row pre post :
  exists a b,
    sort_values (pre ++ r1 :: post) = a ++ r1 :: b /\
    sort_values (pre ++ r2 :: post) = a ++ r2 :: b.
Proof.
  induction pre as [|h pre IH]; simpl.
  - apply insert_changed_row.
  - destruct IH as (a & b & H1 & H2). rewrite H1, H2.
    apply insert_beside_changed_row.
Qed.

End OneRowChanged.

Lemma nth_error_shift_changed X : forall a x1 x2 Y j,
  j <> S (List.length X) ->
  nth_error (shift_from a (X ++ x1 :: Y)) j =
  nth_error (shift_from a (X ++ x2 :: Y)) j.
Proof.
  induction X as [|h X IH]; intros a x1 x2 Y j Hj; simpl.
  - destruct j as [|[|j]]; try reflexivity; [now elim Hj|].
    destruct Y; reflexivity.
  - destruct j as [|j]; [reflexivity|].
    simpl. apply IH. simpl in Hj. lia.
Qed.

(** The lag: the shifted position starts at 0 and then holds the previous
    period's position (0 where that position is missing). *)
Lemma shifted_position_lag rs ic lev :
  let s := engine rs ic lev in
  (rs <> [] -> nth_error (shifted_position s) 0 = Some (fz 0)) /\
  forall k p,
    nth_error (position s) k = Some p ->
    nth_error (position s) (S k) <> None ->
    nth_error (shifted_position s) (S k) =
    Some (if is_nan p then fz 0 else p).
Proof.
  unfold engine. cbn [shifted_position position]. split.
  - destruct rs as [|r rs]; [intros H; now elim H|]. reflexivity.
  - intros k p Hp Hn. unfold fillna. rewrite nth_error_map. unfold shift.
    destruct (nth_error _ (S k)) as [y|] eqn:Hy; [|now elim Hn].
    now rewrite (nth_error_shift_from _ NaN k _ _ Hp Hy).
Qed.

(** The engine on two retained series that differ in one forecast. *)
Lemma engine_one_forecast_changed P Q d c f f' ic lev :
  let s := engine (P ++ mkRow d c f :: Q) ic lev in
  let s' := engine (P ++ mkRow d c f' :: Q) ic lev in
  nth_error (forecasts s) (List.length P) = Some f /\
  nth_error (forecasts s') (List.length P) = Some f' /\
  (forall k, k <> List.length P ->
             nth_error (forecasts s) k = nth_error (forecasts s') k) /\
  dates s = dates s' /\ closes s = closes s' /\
  asset_return s = asset_return s' /\
  (forall j, j <> S (List.length P) ->
             nth_error (strategy_return s) j =
             nth_error (strategy_return s') j).
Proof.
  intros s s'. subst s s'. unfold engine.
  cbn [forecasts dates closes asset_return strategy_return].
  rewrite !map_app. cbn [map date close forecast].
  repeat split.
  - rewrite nth_error_app2, length_map, Nat.sub_diag by (rewrite length_map; lia).
    reflexivity.
  - rewrite nth_error_app2, length_map, Nat.sub_diag by (rewrite length_map; lia).
    reflexivity.
  - intros k Hk.
    destruct (Nat.lt_ge_cases k (List.length P)) as [Hlt|Hge].
    + rewrite !nth_error_app1 by (rewrite length_map; lia). reflexivity.
    + rewrite !nth_error_app2 by (rewrite length_map; lia).
      rewrite length_map.
      destruct (k - List.length P)%nat as [|m] eqn:E; [lia|reflexivity].
  - intros j Hj. rewrite !nth_error_zip_with.
    destruct (nth_error (fillna _ (pct_change _)) j); [|reflexivity].
    unfold fillna. rewrite !nth_error_map. unfold shift.
    rewrite (nth_error_shift_changed _ NaN
               (fmul (fdiv f (fz 10)) (Fin lev))
               (fmul (fdiv f' (fz 10)) (Fin lev))).
    + reflexivity.
    + now rewrite !length_map.
Qed.

(** C2: two runs whose tables differ only in one defined forecast either
    raise the same exception or both return; the changed forecast stands at
    one index [i] of both returned series, which agree on dates, closes and
    asset returns, and whose strategy returns agree at every index other
    than [i + 1], so at every [j <= i]. *)
Theorem no_lookahead :
  forall cols pre post d c f f' ic lev,
    is_nan f = false -> is_nan f' = false ->
    match run_backtest (mkDF cols (pre ++ mkRow d c f :: post)) ic lev,
          run_backtest (mkDF cols (pre ++ mkRow d c f' :: post)) ic lev with
    | Ok (s, _), Ok (s', _) =>
        exists i,
          nth_error (forecasts s) i = Some f /\
          nth_error (forecasts s') i = Some f' /\
          (forall k, k <> i ->
                     nth_error (forecasts s) k = nth_error (forecasts s') k) /\
          dates s = dates s' /\ closes s = closes s' /\
          asset_return s = asset_return s' /\
          (forall j, j <> S i ->
                     nth_error (strategy_return s) j =
                     nth_error (strategy_return s') j) /\
          (forall j, (j <= i)%nat ->
                     nth_error (strategy_return s) j =
                     nth_error (strategy_return s') j) /\
          nth_error (shifted_position s) 0 = Some (fz 0) /\
          (forall k p,
             nth_error (position s) k = Some p ->
             nth_error (position s) (S k) <> None ->
             nth_error (shifted_position s) (S k) =
             Some (if is_nan p then fz 0 else p))
    | Raise e, Raise e' => e = e'
    | _, _ => False
    end.
Proof.
  intros cols pre post d c f f' ic lev Hf Hf'.
  assert (exists P Q,
            kept (mkDF cols (pre ++ mkRow d c f :: post)) =
              P ++ mkRow d c f :: Q /\
            kept (mkDF cols (pre ++ mkRow d c f' :: post)) =
              P ++ mkRow d c f' :: Q) as (P & Q & K1 & K2).
  { unfold kept, date_column. simpl rows. simpl columns.
    assert (forall a b,
              filter notna (a ++ mkRow d c f :: b) =
                filter notna a ++ mkRow d c f :: filter notna b /\
              filter notna (a ++ mkRow d c f' :: b) =
                filter notna a ++ mkRow d c f' :: filter notna b) as HF.
    { intros a b. split; apply filter_keep_middle; unfold notna; simpl;
        [now rewrite Hf | now rewrite Hf']. }
    destruct (has_column "date" (map lower cols)).
    - destruct (sort_values_changed_row (mkRow d c f) (mkRow d c f')
                  eq_refl pre post) as (a & b & H1 & H2).
      rewrite H1, H2. exists (filter notna a), (filter notna b). apply HF.
    - exists (filter notna pre), (filter notna post). apply HF. }
  rewrite !run_backtest_cases. rewrite K1, K2.
  assert (forall g, is_nan g = false ->
            some_forecast (mkDF cols (pre ++ mkRow d c g :: post)) = true)
    as HS.
  { intros g Hg. unfold some_forecast. simpl rows.
    rewrite existsb_app. simpl existsb. unfold notna at 2. simpl forecast.
    rewrite Hg. simpl. now rewrite orb_true_r. }
  rewrite (HS f Hf), (HS f' Hf').
  unfold required_columns, date_column. simpl columns. simpl negb.
  destruct (has_column "close" _ && has_column "forecast" _);
    simpl; [|reflexivity].
  destruct (has_column "date" _); simpl; [|reflexivity].
  exists (List.length P).
  pose proof (engine_one_forecast_changed P Q d c f f' ic lev) as H.
  cbv zeta in H. destruct H as (H1 & H2 & H3 & H4 & H5 & H6 & H7).
  destruct (shifted_position_lag (P ++ mkRow d c f :: Q) ic lev) as [L0 L1].
  repeat split; auto.
  - intros j Hj. apply H7. lia.
  - apply L0. now destruct P.
Qed.

(** The theorem at the scenario table and its changed copy. *)
Lemma no_lookahead_witness :
  match run_backtest scenario_df (zq 1000) (zq 1),
        run_backtest scenario_changed_df (zq 1000) (zq 1) with
  | Ok (s, _), Ok (s', _) =>
      exists i,
        nth_error (forecasts s) i = Some (fz 10) /\
        nth_error (forecasts s') i = Some (fz (-5)) /\
        forall j, (j <= i)%nat ->
                  nth_error (strategy_return s) j =
                  nth_error (strategy_return s') j
  | _, _ => False
  end.
Proof.
  pose proof (no_lookahead ["date"; "close"; "forecast"]%string
                [mkRow 0 (zq 100) (fz 10); mkRow 1 (zq 101) (fz 10)]
                [mkRow 3 (zq 99) (fz (-10)); mkRow 4 (zq 100) (fz (-10))]
                2%Z (zq 102) (fz 10) (fz (-5)) (zq 1000) (zq 1)
                eq_refl eq_refl) as H.
  change (mkDF _ (_ ++ mkRow 2 (zq 102) (fz 10) :: _))
    with scenario_df in H.
  change (mkDF _ (_ ++ mkRow 2 (zq 102) (fz (-5)) :: _))
    with scenario_changed_df in H.
  destruct (run_backtest scenario_df (zq 1000) (zq 1))
    as [[s ts]|e] eqn:E1; [|vm_compute in E1; discriminate E1].
  destruct (run_backtest scenario_changed_df (zq 1000) (zq 1))
    as [[s' ts']|e']; [|exact H].
  destruct H as (i & H1 & H2 & _ & _ & _ & _ & _ & H8 & _).
  exists i. repeat split; assumption.
Defined.

(* ================================================================== *)
(** * Reconciliation of the ledger with the equity curve *)

Lemma finite_inv x : finite x -> exists q, x = Fin q.
Proof. destruct x; try discriminate. eauto. Qed.

Lemma inf_of_sign_not_fin s q : inf_of_sign s <> Fin q.
Proof. destruct s; discriminate. Qed.

Lemma fmul_fin_inv a y q :
  fmul (Fin a) y = Fin q -> exists b, y = Fin b /\ q = a * b.
Proof.
  destruct y as [b| | |]; unfold fmul; intros H;
    try (now apply inf_of_sign_not_fin in H); try discriminate.
  inversion H. eauto.
Qed.

Lemma fadd_fin_inv a y q :
  fadd (Fin a) y = Fin q -> exists b, y = Fin b /\ q = a + b.
Proof.
  destruct y as [b| | |]; simpl; try discriminate.
  intros H. inversion H. eauto.
Qed.

Lemma fmul_fin_r_inv x b q :
  fmul x (Fin b) = Fin q -> exists a, x = Fin a /\ q = a * b.
Proof.
  destruct x as [a| | |]; unfold fmul; intros H;
    try (now apply inf_of_sign_not_fin in H); try discriminate.
  inversion H. eauto.
Qed.

Lemma np_sign_zero f : fneb (np_sign f) (fz 0) = false -> f = Fin 0.
Proof.
  unfold fneb. destruct f as [q| | |]; simpl; try discriminate.
  unfold Qcsgn. destruct (Qccompare q 0) eqn:E; try discriminate.
  intros _. f_equal. now apply Qceq_alt.
Qed.

Lemma ledger_sum_snoc ts t :
  ledger_sum (ts ++ [t]) = fadd (ledger_sum ts) (pnl_abs t).
Proof. unfold ledger_sum. now rewrite map_app, fold_left_app. Qed.

Lemma first_true_some l : forall i,
  first_true l = Some i ->
  nth_error l i = Some true /\
  forall k, (k < i)%nat -> nth_error l k = Some false.
Proof.
  induction l as [|b l IH]; intros i H; [discriminate|].
  simpl in H. destruct b.
  - inversion H; subst. split; [reflexivity|]. intros k Hk. lia.
  - destruct (first_true l) as [j|]; [|discriminate].
    inversion H; subst. destruct (IH j eq_refl) as [H1 H2].
    split; [exact H1|]. intros [|k] Hk; [reflexivity|].
    apply H2. lia.
Qed.

Lemma nth_error_cumprod_step l : forall acc k c x,
  nth_error (cumprod_from acc l) k = Some c -> c <> NaN ->
  nth_error l (S k) = Some x -> is_nan x = false ->
  nth_error (cumprod_from acc l) (S k) = Some (fmul c x).
Proof.
  induction l as [|h t IH]; intros acc k c x Hc Hn Hx Hnan; [discriminate|].
  destruct k as [|k].
  - destruct t as [|y t]; [discriminate|].
    simpl in Hx. inversion Hx; subst y.
    simpl in *. destruct (is_nan h).
    + inversion Hc; subst. now elim Hn.
    + inversion Hc; subst. now rewrite Hnan.
  - change (nth_error (h :: t) (S (S k))) with (nth_error t (S k)) in Hx.
    simpl in *. destruct (is_nan h); simpl in *; eapply IH; eauto.
Qed.

Section Ledger.

Variable equity_curve : column.
Variable dates_ : list Z.
Variable signs : column.
Variable basis0 : Qc.

Hypothesis equity_finite : Forall finite equity_curve.

Lemma equity_at i :
  (i < List.length equity_curve)%nat ->
  exists e, nth i equity_curve NaN = Fin e.
Proof.
  intros Hi. apply finite_inv.
  rewrite Forall_forall in equity_finite. apply equity_finite.
  now apply nth_In.
Qed.

Lemma seg_step_inv st i :
  (i < List.length equity_curve)%nat ->
  fneb (nth i signs NaN) (fz 0) = true ->
  ledger_inv basis0 st ->
  ledger_inv basis0 (seg_step equity_curve dates_ signs st i).
Proof.
  intros Hi Hs (Ht & b & Hb & Hsum). unfold seg_step.
  destruct (fneb (nth i signs NaN) (trade_type st));
    [|now split; eauto].
  rewrite Hs. destruct (equity_at i Hi) as [e He].
  split; [exact Hs|]. exists e. split; [exact He|].
  cbn [trades]. rewrite ledger_sum_snoc, Hsum.
  unfold close_trade. cbn [pnl_abs]. rewrite Hb, He. simpl.
  f_equal. ring.
Qed.

Lemma seg_loop_inv n : forall a st,
  (a + n <= List.length equity_curve)%nat ->
  (forall i, (a <= i < a + n)%nat ->
             fneb (nth i signs NaN) (fz 0) = true) ->
  ledger_inv basis0 st ->
  ledger_inv basis0
    (fold_left (seg_step equity_curve dates_ signs) (seq a n) st).
Proof.
  induction n as [|n IH]; intros a st Hlen Hs Hinv; [exact Hinv|].
  simpl. apply IH.
  - lia.
  - intros i Hi. apply Hs. lia.
  - apply seg_step_inv; [lia| apply Hs; lia | exact Hinv].
Qed.

Lemma seg_finish_sum st :
  equity_curve <> [] ->
  ledger_inv basis0 st ->
  ledger_sum (seg_finish equity_curve dates_ signs st) =
  fsub (last equity_curve NaN) (Fin basis0).
Proof.
  intros Hne (Ht & b & Hb & Hsum). unfold seg_finish. rewrite Ht.
  rewrite ledger_sum_snoc, Hsum. unfold close_trade. cbn [pnl_abs].
  rewrite Hb.
  assert (exists e, last equity_curve NaN = Fin e) as [e He].
  { apply finite_inv. rewrite Forall_forall in equity_finite.
    apply equity_finite.
    destruct (exists_last Hne) as (l & x & ->).
    rewrite last_last. apply in_or_app. right. now left. }
  rewrite He. simpl. f_equal. ring.
Qed.

End Ledger.

Lemma nth_error_cumprod_nan l : forall acc k x,
  nth_error l k = Some x -> is_nan x = true ->
  nth_error (cumprod_from acc l) k = Some NaN.
Proof.
  induction l as [|h t IH]; intros acc k x Hx Hn; [now destruct k|].
  destruct k as [|k]; simpl in *.
  - inversion Hx; subst. now rewrite Hn.
  - destruct (is_nan h); simpl; eapply IH; eauto.
Qed.

Lemma nth_error_finite l i :
  Forall finite l -> (i < List.length l)%nat ->
  exists q, nth_error l i = Some (Fin q).
Proof.
  intros HF Hi. destruct (nth_error l i) as [x|] eqn:E.
  - rewrite Forall_forall in HF.
    destruct (finite_inv x (HF x (nth_error_In _ _ E))) as [q ->]. eauto.
  - apply nth_error_None in E. lia.
Qed.

Lemma nth_error_lt {A} (l : list A) i x :
  nth_error l i = Some x -> (i < List.length l)%nat.
Proof. intros H. apply nth_error_Some. congruence. Qed.

(** The first period of every run keeps the capital. *)
Lemma strategy_equity_head r rs ic lev :
  nth 0 (strategy_equity (engine (r :: rs) ic lev)) NaN = Fin ic.
Proof.
  unfold engine. cbn [strategy_equity]. unfold cumprod, pct_change, shift.
  cbn [map shift_from zip_with fillna nth cumprod_from].
  cbn [fdiv fsub fadd fneg is_nan fz fmul].
  cbn [map nth fmul].
  f_equal. change (zq 0) with (0 : Qc). change (zq 1) with (1 : Qc). ring.
Qed.

(** After a period without position the equity is unchanged, when finite. *)
Lemma strategy_equity_flat_step rs ic lev k :
  let s := engine rs ic lev in
  Forall finite (strategy_equity s) ->
  (S k < List.length rs)%nat ->
  nth_error (forecasts s) k = Some (Fin 0) ->
  nth_error (strategy_equity s) (S k) = nth_error (strategy_equity s) k.
Proof.
  intros s HF Hlt Hf.
  assert (List.length (strategy_equity s) = List.length rs) as HL
    by apply length_strategy_equity.
  destruct (nth_error_finite _ k HF ltac:(lia)) as [ek Hk].
  destruct (nth_error_finite _ (S k) HF ltac:(lia)) as [esk Hsk].
  rewrite Hk, Hsk.
  subst s. unfold engine in *.
  cbn [strategy_equity forecasts] in *.
  set (ar := fillna (fz 0) (pct_change (map (fun r => Fin (close r)) rs))) in *.
  set (pos := map (fun f => fmul (fdiv f (fz 10)) (Fin lev))
                  (map forecast rs)) in *.
  set (sr := zip_with fmul ar (fillna (fz 0) (shift pos))) in *.
  rewrite nth_error_map in Hk, Hsk.
  destruct (nth_error (cumprod (map (fadd (fz 1)) sr)) k) as [ck|] eqn:Ck;
    [|discriminate].
  destruct (nth_error (cumprod (map (fadd (fz 1)) sr)) (S k)) as [csk|] eqn:Csk;
    [|discriminate].
  simpl in Hk, Hsk. inversion Hk as [Hk']. inversion Hsk as [Hsk'].
  clear Hk Hsk.
  destruct (fmul_fin_inv _ _ _ Hk') as (qk & -> & ->).
  destruct (fmul_fin_inv _ _ _ Hsk') as (qsk & -> & ->).
  (* the strategy return of period k + 1 *)
  assert (exists x, nth_error sr (S k) = Some x) as [x Hx].
  { destruct (nth_error sr (S k)) eqn:E; [eauto|].
    apply nth_error_None in E.
    apply nth_error_lt in Csk. unfold cumprod in Csk.
    rewrite length_cumprod_from, length_map in Csk. lia. }
  assert (nth_error (map (fadd (fz 1)) sr) (S k) = Some (fadd (fz 1) x)) as HX
    by (rewrite nth_error_map, Hx; reflexivity).
  destruct (is_nan (fadd (fz 1) x)) eqn:Hnan.
  { unfold cumprod in Csk.
    rewrite (nth_error_cumprod_nan _ _ _ _ HX Hnan) in Csk. discriminate. }
  unfold cumprod in Ck, Csk.
  rewrite (nth_error_cumprod_step _ _ _ _ _ Ck ltac:(discriminate) HX Hnan)
    in Csk.
  inversion Csk as [Hstep]. clear Csk.
  destruct (fmul_fin_inv _ _ _ Hstep) as (b & Hb & ->).
  unfold fz in Hb. destruct (fadd_fin_inv _ _ _ Hb) as (b' & -> & ->).
  (* it is the asset return times a zero position *)
  unfold sr in Hx. rewrite nth_error_zip_with in Hx.
  destruct (nth_error ar (S k)) as [a|] eqn:Ha; [|discriminate].
  assert (nth_error (fillna (fz 0) (shift pos)) (S k) =
          Some (Fin (0 / zq 10 * lev))) as Hsh.
  { unfold fillna. rewrite nth_error_map. unfold shift.
    assert (nth_error pos k = Some (Fin (0 / zq 10 * lev))) as Hp.
    { unfold pos. rewrite nth_error_map, Hf. cbn [option_map].
      unfold fz, fdiv. now rewrite zq_pos_nonzero. }
    destruct (nth_error pos (S k)) as [y|] eqn:Hy.
    - rewrite (nth_error_shift_from _ NaN k _ _ Hp Hy). reflexivity.
    - apply nth_error_None in Hy. unfold pos in Hy.
      rewrite !length_map in Hy. lia. }
  rewrite Hsh in Hx. inversion Hx as [Hx']. clear Hx.
  destruct (fmul_fin_r_inv _ _ _ Hx') as (qa & -> & ->).
  do 2 f_equal. change (zq 1) with (1 : Qc). unfold Qcdiv. ring.
Qed.

Lemma first_basis rs ic lev i0 :
  let s := engine rs ic lev in
  Forall finite (strategy_equity s) ->
  first_invested s = Some i0 ->
  (if Nat.eqb i0 0 then Fin ic else nth (i0 - 1) (strategy_equity s) NaN) =
  nth i0 (strategy_equity s) NaN.
Proof.
  intros s HF Hi0. unfold first_invested in Hi0.
  destruct (first_true_some _ _ Hi0) as [Hat Hbefore].
  assert (i0 < List.length rs)%nat as Hlt.
  { apply nth_error_lt in Hat. subst s. unfold engine in Hat.
    cbn [forecasts] in Hat. now rewrite !length_map in Hat. }
  destruct i0 as [|k].
  - destruct rs as [|r rs]; [simpl in Hlt; lia|].
    subst s. simpl Nat.eqb. cbv iota. symmetry. apply strategy_equity_head.
  - simpl Nat.eqb. cbv iota. rewrite Nat.sub_succ, Nat.sub_0_r.
    assert (nth_error (forecasts s) k = Some (Fin 0)) as Hf.
    { specialize (Hbefore k ltac:(lia)). rewrite nth_error_map in Hbefore.
      destruct (nth_error (forecasts s) k) as [f|]; [|discriminate].
      simpl in Hbefore. inversion Hbefore as [H0].
      now rewrite (np_sign_zero f H0). }
    pose proof (strategy_equity_flat_step rs ic lev k HF Hlt Hf) as Hstep.
    fold s in Hstep.
    assert (List.length (strategy_equity s) = List.length rs) as HL
      by apply length_strategy_equity.
    rewrite <- (nth_default_eq (S k)), <- (nth_default_eq k).
    unfold nth_default. now rewrite Hstep.
Qed.

Lemma run_backtest_ok_inv df ic lev s ts :
  run_backtest df ic lev = Ok (s, ts) ->
  s = engine (kept df) ic lev /\
  ts = segment_trades (strategy_equity s) (dates s)
                      (map np_sign (forecasts s)) ic.
Proof.
  rewrite run_backtest_cases.
  destruct (negb (required_columns df)); [discriminate|].
  destruct (negb (some_forecast df)); [discriminate|].
  destruct (negb (date_column df)); [discriminate|].
  cbv zeta. intros H. injection H as H1 H2. subst s. split; [reflexivity|].
  now rewrite <- H2.
Qed.




(* ================================================================== *)
(** * The returned table *)

(** Opens a witness on the scenario table with its run. *)
Ltac scenario_run :=
  exists (engine (kept scenario_df) (zq 1000) (zq 1));
  eexists; split; [reflexivity|].

Lemma kept_sorted_filter df :
  date_column df = true -> kept df = sort_values (filter notna (rows df)).
Proof. intros H. unfold kept. rewrite H. apply filter_sort_values. Qed.

Lemma length_kept df :
  List.length (kept df) = List.length (filter notna (rows df)).
Proof.
  unfold kept. destruct (date_column df); [|reflexivity].
  now rewrite filter_sort_values, length_sort_values.
Qed.

Lemma run_backtest_ok_date df ic lev out :
  run_backtest df ic lev = Ok out -> date_column df = true.
Proof.
  intros H. apply (proj1 (run_backtest_returns df ic lev)). eauto.
Qed.

Lemma kept_nonempty df ic lev out :
  run_backtest df ic lev = Ok out -> kept df <> [].
Proof.
  intros H E. apply kept_nil in E.
  destruct (proj1 (run_backtest_returns df ic lev) (ex_intro _ out H))
    as (_ & H2 & _).
  congruence.
Qed.

(** X1: every column of the returned table has one cell per input row with
    a defined forecast, and there is at least one. *)
Theorem returned_columns_aligned :
  forall df ic lev s ts,
    run_backtest df ic lev = Ok (s, ts) ->
    let n := List.length (filter notna (rows df)) in
    (0 < n)%nat /\
    List.length (dates s) = n /\ List.length (closes s) = n /\
    List.length (forecasts s) = n /\ List.length (asset_return s) = n /\
    List.length (position s) = n /\ List.length (shifted_position s) = n /\
    List.length (strategy_return s) = n /\
    List.length (asset_equity s) = n /\ List.length (strategy_equity s) = n.
Proof.
  intros df ic lev s ts Hrun n.
  pose proof (kept_nonempty df ic lev _ Hrun) as Hne.
  destruct (run_backtest_ok_inv df ic lev s ts Hrun) as [-> _].
  subst n. rewrite <- length_kept.
  split; [destruct (kept df); [now elim Hne | simpl; lia]|].
  rewrite length_strategy_return, length_strategy_equity.
  unfold engine. cbn [dates closes forecasts asset_return position
                      shifted_position asset_equity].
  unfold cumprod, shift.
  repeat split;
    repeat first [ rewrite length_map | rewrite length_cumprod_from
                 | rewrite length_fillna | rewrite length_pct_change
                 | rewrite length_shift_from ];
    reflexivity.
Qed.

Lemma returned_columns_aligned_witness :
  exists s ts,
    run_backtest scenario_df (zq 1000) (zq 1) = Ok (s, ts) /\
    List.length (strategy_equity s) = 5%nat /\
    List.length (dates s) = 5%nat.
Proof.
  scenario_run.
  destruct (returned_columns_aligned scenario_df (zq 1000) (zq 1) _ _ eq_refl)
    as (_ & H1 & _ & _ & _ & _ & _ & _ & _ & H9).
  split; [exact H9 | exact H1].
Defined.

Lemma StronglySorted_filter {A} (R : A -> A -> Prop) (p : A -> bool) l :
  StronglySorted R l -> StronglySorted R (filter p l).
Proof.
  induction 1 as [|a l Hs IH Hf]; simpl; [constructor|].
  destruct (p a); [|exact IH].
  constructor; [exact IH | now apply Forall_filter].
Qed.

Lemma StronglySorted_map_date l :
  StronglySorted date_le l -> StronglySorted Z.le (map date l).
Proof.
  induction 1 as [|a l Hs IH Hf]; simpl; constructor; [exact IH|].
  rewrite Forall_forall in *. intros d Hd. apply in_map_iff in Hd.
  destruct Hd as (r & <- & Hr). now apply Hf.
Qed.

(** X2: the dates of the returned table are in ascending order, whatever
    the order of the input rows. *)
Theorem returned_dates_ascending :
  forall df ic lev s ts,
    run_backtest df ic lev = Ok (s, ts) ->
    StronglySorted Z.le (dates s).
Proof.
  intros df ic lev s ts Hrun.
  pose proof (run_backtest_ok_date df ic lev _ Hrun) as Hd.
  destruct (run_backtest_ok_inv df ic lev s ts Hrun) as [-> _].
  unfold engine. cbn [dates]. apply StronglySorted_map_date.
  unfold kept. rewrite Hd.
  apply StronglySorted_filter, sort_values_sorted.
Qed.

(** The scenario rows in reverse order. *)
Lemma returned_dates_ascending_witness :
  exists s ts,
    run_backtest (mkDF (columns scenario_df) (rev (rows scenario_df)))
                 (zq 1000) (zq 1) = Ok (s, ts) /\
    StronglySorted Z.le (dates s).
Proof.
  exists (engine (kept (mkDF (columns scenario_df) (rev (rows scenario_df))))
                 (zq 1000) (zq 1)).
  eexists. split; [reflexivity|].
  apply (returned_dates_ascending
           (mkDF (columns scenario_df) (rev (rows scenario_df)))
           (zq 1000) (zq 1) _ _ eq_refl).
Defined.

Lemma Permutation_insert_by_date r l :
  Permutation (insert_by_date r l) (r :: l).
Proof.
  induction l as [|h t IH]; simpl; [reflexivity|].
  destruct (date r <=? date h)%Z; [reflexivity|].
  rewrite IH. apply perm_swap.
Qed.

Lemma Permutation_sort_values l : Permutation (sort_values l) l.
Proof.
  induction l as [|a l IH]; simpl; [reflexivity|].
  rewrite Permutation_insert_by_date. now constructor.
Qed.

(** X3: the returned table holds exactly the input rows that have a
    forecast, each as often as the input does: its date, close and forecast
    columns are those of a rearrangement of these rows. *)
Theorem returned_rows_are_the_defined_rows :
  forall df ic lev s ts,
    run_backtest df ic lev = Ok (s, ts) ->
    exists rs,
      Permutation rs (filter notna (rows df)) /\
      dates s = map date rs /\
      closes s = map (fun r => Fin (close r)) rs /\
      forecasts s = map forecast rs.
Proof.
  intros df ic lev s ts Hrun.
  pose proof (run_backtest_ok_date df ic lev _ Hrun) as Hd.
  destruct (run_backtest_ok_inv df ic lev s ts Hrun) as [-> _].
  exists (kept df). split; [|repeat split].
  rewrite (kept_sorted_filter df Hd). apply Permutation_sort_values.
Qed.

Lemma returned_rows_are_the_defined_rows_witness :
  exists s ts rs,
    run_backtest mid_gap_df (zq 1000) (zq 1) = Ok (s, ts) /\
    Permutation rs (filter notna (rows mid_gap_df)) /\
    dates s = map date rs.
Proof.
  exists (engine (kept mid_gap_df) (zq 1000) (zq 1)).
  eexists.
  destruct (returned_rows_are_the_defined_rows mid_gap_df (zq 1000) (zq 1)
              _ _ eq_refl) as (rs & H1 & H2 & _).
  exists rs. split; [reflexivity|]. split; assumption.
Defined.

(** X4: in the first period of every returned table the asset return, the
    shifted position and the strategy return are 0, and both equity curves
    stand at the initial capital. *)
Theorem first_period_is_flat :
  forall df ic lev s ts,
    run_backtest df ic lev = Ok (s, ts) ->
    nth_error (asset_return s) 0 = Some (fz 0) /\
    nth_error (shifted_position s) 0 = Some (fz 0) /\
    nth_error (strategy_return s) 0 = Some (fz 0) /\
    nth_error (asset_equity s) 0 = Some (Fin ic) /\
    nth_error (strategy_equity s) 0 = Some (Fin ic).
Proof.
  intros df ic lev s ts Hrun.
  pose proof (kept_nonempty df ic lev _ Hrun) as Hne.
  destruct (run_backtest_ok_inv df ic lev s ts Hrun) as [-> _].
  destruct (kept df) as [|r rs]; [now elim Hne|].
  unfold engine. cbn [asset_return shifted_position strategy_return
                      asset_equity strategy_equity].
  unfold cumprod, pct_change, shift.
  cbn [map shift_from zip_with fillna nth_error cumprod_from].
  cbn [fdiv fsub fadd fneg is_nan fz fmul].
  cbn [map nth_error fmul].
  change (zq 0) with (0 : Qc). change (zq 1) with (1 : Qc).
  repeat split; do 2 f_equal; ring.
Qed.

Lemma first_period_is_flat_witness :
  exists s ts,
    run_backtest scenario_df (zq 1000) (zq 1) = Ok (s, ts) /\
    nth_error (strategy_equity s) 0 = Some (Fin (zq 1000)).
Proof.
  scenario_run.
  apply (first_period_is_flat scenario_df (zq 1000) (zq 1) _ _ eq_refl).
Defined.

(* ================================================================== *)
(** * Prices that are never zero *)

Lemma pct_change_cons x t :
  pct_change (x :: t) =
  ratio_minus_one x NaN :: zip_with ratio_minus_one t (shift_from x t).
Proof. reflexivity. Qed.

Lemma In_kept r df : In r (kept df) -> In r (rows df).
Proof.
  unfold kept. intros H. apply filter_In in H. destruct H as [H _].
  destruct (date_column df); [now apply In_sort_values|exact H].
Qed.

Lemma kept_closes_nonzero df :
  Forall (fun r => close r <> 0) (rows df) ->
  Forall (fun c => c <> 0) (map close (kept df)).
Proof.
  rewrite !Forall_forall. intros H c Hc. apply in_map_iff in Hc.
  destruct Hc as (r & <- & Hr). apply H. now apply In_kept.
Qed.

Lemma ratio_fin c p :
  p <> 0 -> ratio_minus_one (Fin c) (Fin p) = Fin (c / p - 1).
Proof.
  intros Hp. unfold ratio_minus_one, fdiv. apply Qceqb_neq in Hp.
  now rewrite Hp.
Qed.

(** The running product of the price ratios is the price over the first
    price. *)
Lemma cumprod_price_ratios cs : forall a p,
  p <> 0 -> Forall (fun c => c <> 0) cs ->
  cumprod_from (Fin a)
    (map (fadd (fz 1))
       (fillna (fz 0)
          (zip_with ratio_minus_one (map Fin cs)
                    (shift_from (Fin p) (map Fin cs))))) =
  map (fun c => Fin (a * (c / p))) cs.
Proof.
  induction cs as [|c cs IH]; intros a p Hp Hcs; [reflexivity|].
  inversion Hcs as [|? ? Hc Hcs']; subst.
  cbn [map shift_from zip_with fillna]. rewrite (ratio_fin c p Hp).
  cbn [is_nan fadd fz cumprod_from fmul].
  rewrite (IH _ c Hc Hcs').
  f_equal.
  - f_equal. change (zq 1) with (1 : Qc). ring.
  - apply map_ext. intros c'. f_equal. change (zq 1) with (1 : Qc).
    field. split; assumption.
Qed.

(** X5: when no input price is zero, the asset equity of every period is
    the initial capital times the period's close over the first retained
    close. *)
Theorem buy_and_hold_tracks_price :
  forall df ic lev s ts,
    run_backtest df ic lev = Ok (s, ts) ->
    Forall (fun r => close r <> 0) (rows df) ->
    exists c0 cs,
      closes s = map Fin (c0 :: cs) /\
      asset_equity s = map (fun c => Fin (ic * (c / c0))) (c0 :: cs).
Proof.
  intros df ic lev s ts Hrun Hnz.
  pose proof (kept_nonempty df ic lev _ Hrun) as Hne.
  pose proof (kept_closes_nonzero df Hnz) as Hk.
  destruct (run_backtest_ok_inv df ic lev s ts Hrun) as [-> _].
  destruct (kept df) as [|r rs]; [now elim Hne|].
  cbn [map] in Hk. inversion Hk as [|? ? H0 Hcs]; subst.
  exists (close r), (map close rs). split.
  - unfold engine. cbn [closes]. cbn [map]. now rewrite map_map.
  - unfold engine. cbn [asset_equity]. cbn [map].
    rewrite pct_change_cons. unfold cumprod.
    cbn [fillna map]. unfold ratio_minus_one at 1.
    cbn [fdiv fsub fadd fneg is_nan fz cumprod_from fmul].
    rewrite <- (map_map close Fin rs).
    rewrite (cumprod_price_ratios (map close rs) _ (close r) H0 Hcs).
    cbn [map fmul]. f_equal.
    + f_equal. change (zq 0) with (0 : Qc). change (zq 1) with (1 : Qc).
      field. exact H0.
    + rewrite map_map. apply map_ext. intros c. cbn [fmul]. f_equal.
      change (zq 0) with (0 : Qc). change (zq 1) with (1 : Qc). ring.
Qed.

Lemma buy_and_hold_tracks_price_witness :
  exists s ts c0 cs,
    run_backtest scenario_df (zq 1000) (zq 1) = Ok (s, ts) /\
    closes s = map Fin (c0 :: cs) /\
    asset_equity s = map (fun c => Fin (zq 1000 * (c / c0))) (c0 :: cs).
Proof.
  exists (engine (kept scenario_df) (zq 1000) (zq 1)). eexists.
  destruct (buy_and_hold_tracks_price scenario_df (zq 1000) (zq 1) _ _ eq_refl)
    as (c0 & cs & H1 & H2).
  - repeat constructor; vm_compute; discriminate.
  - exists c0, cs. split; [reflexivity|]. split; assumption.
Defined.

Lemma asset_return_tail_finite cs : forall p,
  p <> 0 -> Forall (fun c => c <> 0) cs ->
  Forall finite
    (fillna (fz 0)
       (zip_with ratio_minus_one (map Fin cs)
                 (shift_from (Fin p) (map Fin cs)))).
Proof.
  induction cs as [|c cs IH]; intros p Hp Hcs; [constructor|].
  inversion Hcs as [|? ? Hc Hcs']; subst.
  cbn [map shift_from zip_with fillna]. rewrite (ratio_fin c p Hp).
  constructor; [reflexivity|]. now apply IH.
Qed.

Lemma asset_return_finite rs ic lev :
  Forall (fun c => c <> 0) (map close rs) ->
  Forall finite (asset_return (engine rs ic lev)).
Proof.
  intros H. unfold engine. cbn [asset_return].
  destruct rs as [|r rs]; [constructor|].
  cbn [map] in *. inversion H as [|? ? H0 Hcs]; subst.
  rewrite pct_change_cons. cbn [fillna map].
  constructor; [reflexivity|].
  rewrite <- (map_map close Fin rs). now apply asset_return_tail_finite.
Qed.

Lemma shift_from_repeat z n a :
  fillna (fz 0) (shift_from a (repeat (Fin z) n)) =
  match n with
  | O => []
  | S m => (if is_nan a then fz 0 else a) :: repeat (Fin z) m
  end.
Proof.
  revert a. induction n as [|n IH]; intros a; [reflexivity|].
  cbn [repeat shift_from fillna map]. f_equal.
  specialize (IH (Fin z)). unfold fillna in IH. rewrite IH.
  destruct n; reflexivity.
Qed.

Lemma zip_with_zero_position l n :
  Forall finite l -> List.length l = n ->
  zip_with fmul l (repeat (Fin 0) n) = repeat (Fin 0) n.
Proof.
  intros H. revert n. induction H as [|x l Hx Hl IH]; intros n Hn;
    destruct n; try discriminate; [reflexivity|].
  destruct (finite_inv x Hx) as [q ->].
  cbn [repeat zip_with fmul]. f_equal; [f_equal; ring|].
  apply IH. simpl in Hn. lia.
Qed.

Lemma cumprod_ones n :
  cumprod_from (Fin 1) (repeat (Fin 1) n) = repeat (Fin 1) n.
Proof.
  induction n as [|n IH]; [reflexivity|].
  cbn [repeat cumprod_from is_nan fmul].
  replace (1 * 1)%Qc with (1 : Qc) by ring. now rewrite IH.
Qed.

Lemma map_const_repeat {A B} (f : A -> B) (b : B) (l : list A) :
  (forall a, In a l -> f a = b) -> map f l = repeat b (List.length l).
Proof.
  induction l as [|a l IH]; intros H; [reflexivity|].
  simpl. rewrite (H a) by now left. f_equal. apply IH.
  intros x Hx. apply H. now right.
Qed.

Lemma strategy_return_def rs ic lev :
  strategy_return (engine rs ic lev) =
  zip_with fmul (asset_return (engine rs ic lev))
    (fillna (fz 0)
       (shift (map (fun f => fmul (fdiv f (fz 10)) (Fin lev))
                   (map forecast rs)))).
Proof. reflexivity. Qed.

Lemma strategy_equity_def rs ic lev :
  strategy_equity (engine rs ic lev) =
  map (fmul (Fin ic))
      (cumprod (map (fadd (fz 1)) (strategy_return (engine rs ic lev)))).
Proof. reflexivity. Qed.



(* ================================================================== *)
(** * The trade loop *)

Lemma feqb_eq x y : feqb x y = true -> x = y.
Proof.
  destruct x, y; simpl; try discriminate; try reflexivity.
  intros H. f_equal. now apply Qceqb_eq.
Qed.

Lemma nth_pred_last {A} (l : list A) d :
  nth (List.length l - 1) l d = last l d.
Proof.
  destruct l as [|a l] using rev_ind; [reflexivity|].
  rewrite last_last, length_app. simpl.
  rewrite app_nth2 by lia.
  replace (List.length l + 1 - 1 - List.length l)%nat with 0%nat by lia.
  reflexivity.
Qed.

Lemma first_true_none l :
  first_true l = None <-> Forall (fun b => b = false) l.
Proof.
  induction l as [|b l IH]; simpl.
  - split; [constructor | reflexivity].
  - destruct b.
    + split; [discriminate|]. intros H. inversion H. discriminate.
    + destruct (first_true l); simpl.
      * split; [discriminate|]. intros H. inversion H as [|? ? _ H3]; subst.
        apply IH in H3. discriminate.
      * split; [|reflexivity]. intros _. constructor; [reflexivity|].
        now apply IH.
Qed.

Lemma sign_changes_step signs a n :
  sign_changes signs a (S n) =
  ((if fneb (nth a signs NaN) (nth (a - 1) signs NaN) then 1 else 0) +
   sign_changes signs (S a) n)%nat.
Proof.
  unfold sign_changes. simpl seq. simpl filter.
  destruct (fneb (nth a signs NaN) (nth (a - 1) signs NaN)); reflexivity.
Qed.

Section TradeLoop.

Variable equity_curve : column.
Variable dates_ : list Z.
Variable signs : column.

(** After the step of index [i] the loop's [trade_type] is the sign of
    period [i]. *)
Lemma seg_step_trade_type st i :
  trade_type (seg_step equity_curve dates_ signs st i) = nth i signs NaN.
Proof.
  unfold seg_step.
  destruct (fneb (nth i signs NaN) (trade_type st)) eqn:E1.
  - destruct (fneb (nth i signs NaN) (fz 0)) eqn:E2; [reflexivity|].
    cbn [trade_type]. symmetry. apply feqb_eq.
    unfold fneb in E2. now apply negb_false_iff in E2.
  - symmetry. apply feqb_eq. unfold fneb in E1.
    now apply negb_false_iff in E1.
Qed.

Lemma seg_step_trades st i :
  List.length (trades (seg_step equity_curve dates_ signs st i)) =
  ((if fneb (nth i signs NaN) (trade_type st) then 1 else 0) +
   List.length (trades st))%nat.
Proof.
  unfold seg_step.
  destruct (fneb (nth i signs NaN) (trade_type st)); [|reflexivity].
  destruct (fneb (nth i signs NaN) (fz 0)); cbn [trades];
    rewrite length_app; simpl; lia.
Qed.

(** One record per change of sign. *)
Lemma seg_loop_count n : forall a st,
  trade_type st = nth (a - 1) signs NaN ->
  List.length (trades (fold_left (seg_step equity_curve dates_ signs) (seq a n) st)) =
    (List.length (trades st) + sign_changes signs a n)%nat /\
  trade_type (fold_left (seg_step equity_curve dates_ signs) (seq a n) st) = nth (a + n - 1) signs NaN.
Proof.
  induction n as [|n IH]; intros a st Ht.
  - simpl. unfold sign_changes. simpl.
    rewrite !Nat.add_0_r. split; [reflexivity | exact Ht].
  - simpl fold_left. simpl seq.
    destruct (IH (S a) (seg_step equity_curve dates_ signs st a)) as [H1 H2].
    { rewrite seg_step_trade_type. f_equal. lia. }
    rewrite H1, H2, seg_step_trades, sign_changes_step, Ht.
    split; [lia | f_equal; lia].
Qed.

(** The loop never loses a record, and an open trade is closed at the end. *)
Lemma seg_loop_nonempty l : forall st,
  trades st <> [] \/ fneb (trade_type st) (fz 0) = true ->
  seg_finish equity_curve dates_ signs (fold_left (seg_step equity_curve dates_ signs) l st) <> [].
Proof.
  induction l as [|i l IH]; intros st H.
  - simpl. unfold seg_finish.
    destruct (fneb (trade_type st) (fz 0)).
    + intros E. now apply app_eq_nil in E as [_ E].
    + destruct H as [H|H]; [exact H | discriminate].
  - simpl. apply IH. unfold seg_step.
    destruct (fneb (nth i signs NaN) (trade_type st)); [|exact H].
    left. destruct (fneb (nth i signs NaN) (fz 0)); cbn [trades];
      intros E; now apply app_eq_nil in E as [_ E].
Qed.

Variable i0 : nat.

Lemma sum_nat_snoc l x : sum_nat (l ++ [x]) = (sum_nat l + x)%nat.
Proof. induction l as [|a l IH]; simpl; lia. Qed.

Lemma seg_loop_span n : forall a st,
  (forall i, (a <= i < a + n)%nat ->
             fneb (nth i signs NaN) (fz 0) = true) ->
  span_inv dates_ i0 st a ->
  span_inv dates_ i0
    (fold_left (seg_step equity_curve dates_ signs) (seq a n) st) (a + n).
Proof.
  induction n as [|n IH]; intros a st Hs Hinv.
  - simpl. now rewrite Nat.add_0_r.
  - simpl. replace (a + S n)%nat with (S a + n)%nat by lia.
    apply IH; [intros i Hi; apply Hs; lia|].
    destruct Hinv as (Ht & Hidx & Hsum & Hdates).
    unfold seg_step.
    destruct (fneb (nth a signs NaN) (trade_type st)).
    + rewrite (Hs a) by lia. unfold span_inv.
      cbn [trade_type trade_start_idx trades open_date].
      split; [apply Hs; lia|]. split; [lia|]. split.
      * rewrite map_app. cbn [map]. rewrite sum_nat_snoc, Hsum.
        unfold close_trade. cbn [duration]. lia.
      * rewrite !map_app. cbn [map]. unfold close_trade.
        cbn [start_date end_date]. rewrite app_comm_cons, <- Hdates.
        now rewrite <- app_assoc.
    + unfold span_inv. repeat split; try tauto; lia.
Qed.

End TradeLoop.

(** The ledger of a run that is invested at some period: the loop from the
    first invested index, then the final close. *)
Lemma trades_of_invested_run df ic lev s ts i0 :
  run_backtest df ic lev = Ok (s, ts) ->
  first_invested s = Some i0 ->
  let S := map np_sign (forecasts s) in
  (i0 < List.length S)%nat /\
  fneb (nth i0 S NaN) (fz 0) = true /\
  ts = seg_finish (strategy_equity s) (dates s) S
         (fold_left (seg_step (strategy_equity s) (dates s) S)
            (seq (i0 + 1) (List.length S - (i0 + 1)))
            (mkSeg [] i0
               (if Nat.eqb i0 0 then Fin ic
                else nth (i0 - 1) (strategy_equity s) NaN)
               (nth i0 S NaN) (nth i0 (dates s) 0%Z))).
Proof.
  intros Hrun Hi0 S.
  destruct (run_backtest_ok_inv df ic lev s ts Hrun) as [_ Hts].
  unfold first_invested in Hi0.
  assert (map (fun f => fneb (np_sign f) (fz 0)) (forecasts s) =
          map (fun x => fneb x (fz 0)) S) as Hmm
    by (unfold S; now rewrite map_map).
  rewrite Hmm in Hi0. destruct (first_true_some _ _ Hi0) as [Hat _].
  assert (i0 < List.length S)%nat as Hlt.
  { apply nth_error_lt in Hat. now rewrite length_map in Hat. }
  assert (fneb (nth i0 S NaN) (fz 0) = true) as Hnz.
  { rewrite nth_error_map in Hat.
    destruct (nth_error S i0) as [x|] eqn:E; [|discriminate].
    rewrite (nth_error_nth _ _ NaN E). now inversion Hat. }
  split; [exact Hlt|]. split; [exact Hnz|].
  rewrite Hts. unfold segment_trades. fold S. unfold argmax. rewrite Hi0.
  unfold fneb in Hnz. apply negb_true_iff in Hnz. now rewrite Hnz.
Qed.

(** X6: a run records no trade exactly when every retained forecast is 0. *)
Theorem no_trade_iff_all_forecasts_zero :
  forall df ic lev s ts,
    run_backtest df ic lev = Ok (s, ts) ->
    (ts = [] <-> Forall (fun f => f = Fin 0) (forecasts s)).
Proof.
  intros df ic lev s ts Hrun.
  destruct (first_invested s) as [i0|] eqn:Hi0.
  - destruct (trades_of_invested_run df ic lev s ts i0 Hrun Hi0)
      as (Hlt & Hnz & Hts).
    split.
    + intros E. exfalso. rewrite Hts in E. revert E.
      apply seg_loop_nonempty. right. exact Hnz.
    + intros HF. exfalso. unfold first_invested in Hi0.
      destruct (first_true_some _ _ Hi0) as [Hat _].
      rewrite nth_error_map in Hat.
      destruct (nth_error (forecasts s) i0) as [f|] eqn:E; [|discriminate].
      rewrite Forall_forall in HF.
      rewrite (HF f (nth_error_In _ _ E)) in Hat. discriminate.
  - unfold first_invested in Hi0.
    pose proof (proj1 (first_true_none _) Hi0) as Hall.
    assert (Forall (fun f => f = Fin 0) (forecasts s)) as HF.
    { rewrite Forall_forall in *. intros f Hf. apply np_sign_zero.
      apply Hall. apply in_map_iff. eauto. }
    split; [intros _; exact HF | intros _].
    destruct (run_backtest_ok_inv df ic lev s ts Hrun) as [Hs Hts].
    rewrite Hts. unfold segment_trades. rewrite map_map. unfold argmax.
    rewrite Hi0.
    destruct (forecasts s) as [|f fs] eqn:E.
    + exfalso. apply (kept_nonempty df ic lev _ Hrun).
      rewrite Hs in E. unfold engine in E. cbn [forecasts] in E.
      now apply map_eq_nil in E.
    + inversion HF; subst. reflexivity.
Qed.

Lemma no_trade_iff_all_forecasts_zero_witness :
  exists s ts,
    run_backtest scenario_df (zq 1000) (zq 1) = Ok (s, ts) /\
    (ts = [] <-> Forall (fun f => f = Fin 0) (forecasts s)).
Proof.
  scenario_run.
  apply (no_trade_iff_all_forecasts_zero scenario_df (zq 1000) (zq 1)
           _ _ eq_refl).
Defined.

(** X8: a run invested from index [i0] on records one trade for every later
    period whose forecast sign (zero included) differs from the sign of the
    period before, and one more when the last sign is not zero. *)
Theorem one_trade_per_sign_change :
  forall df ic lev s ts i0,
    run_backtest df ic lev = Ok (s, ts) ->
    first_invested s = Some i0 ->
    let S := map np_sign (forecasts s) in
    List.length ts =
    (sign_changes S (i0 + 1) (List.length S - (i0 + 1)) +
     (if fneb (last S NaN) (fz 0) then 1 else 0))%nat.
Proof.
  intros df ic lev s ts i0 Hrun Hi0 S.
  destruct (trades_of_invested_run df ic lev s ts i0 Hrun Hi0)
    as (Hlt & Hnz & Hts).
  fold S in Hlt, Hnz, Hts.
  match type of Hts with
  | _ = seg_finish _ _ _ (fold_left _ _ ?st) => set (st0 := st) in *
  end.
  destruct (seg_loop_count (strategy_equity s) (dates s) S
              (List.length S - (i0 + 1)) (i0 + 1) st0) as [Hc Ht].
  { unfold st0. cbn [trade_type]. f_equal. lia. }
  rewrite Hts. unfold seg_finish. rewrite Ht.
  replace (i0 + 1 + (List.length S - (i0 + 1)) - 1)%nat
    with (List.length S - 1)%nat by lia.
  rewrite nth_pred_last.
  destruct (fneb (last S NaN) (fz 0)).
  - rewrite length_app, Hc. simpl. lia.
  - rewrite Hc. simpl. lia.
Qed.

(** The table with a flat period: Long, Flat, Long gives three records. *)
Lemma one_trade_per_sign_change_witness :
  exists s ts,
    run_backtest flat_gap_df (zq 1000) (zq 1) = Ok (s, ts) /\
    List.length ts = 3%nat.
Proof.
  exists (engine (kept flat_gap_df) (zq 1000) (zq 1)). eexists.
  split; [reflexivity|].
  exact (one_trade_per_sign_change flat_gap_df (zq 1000) (zq 1) _ _ 0%nat
           eq_refl eq_refl).
Defined.

(** The final state of the loop of a run without flat period. *)
Lemma no_flat_span df ic lev s ts i0 :
  run_backtest df ic lev = Ok (s, ts) ->
  first_invested s = Some i0 ->
  (forall i, (i0 <= i < List.length (forecasts s))%nat ->
             fneb (np_sign (nth i (forecasts s) NaN)) (fz 0) = true) ->
  exists st,
    span_inv (dates s) i0 st (List.length (forecasts s)) /\
    ts = trades st ++
         [close_trade st (last (strategy_equity s) NaN) (last (dates s) 0%Z)
                      (List.length (forecasts s) - trade_start_idx st)].
Proof.
  intros Hrun Hi0 Hsigns.
  destruct (trades_of_invested_run df ic lev s ts i0 Hrun Hi0)
    as (Hlt & Hnz & Hts).
  set (S := map np_sign (forecasts s)) in *.
  assert (List.length S = List.length (forecasts s)) as HL
    by apply length_map.
  assert (forall i, nth i S NaN = np_sign (nth i (forecasts s) NaN)) as Hnth.
  { intros i. exact (map_nth np_sign (forecasts s) NaN i). }
  match type of Hts with
  | _ = seg_finish _ _ _ (fold_left _ _ ?st) => set (st0 := st) in *
  end.
  pose proof (seg_loop_span (strategy_equity s) (dates s) S i0
                (List.length S - (i0 + 1)) (i0 + 1) st0) as Hspan.
  replace (i0 + 1 + (List.length S - (i0 + 1)))%nat
    with (List.length (forecasts s)) in Hspan by lia.
  eexists. split.
  - apply Hspan.
    + intros i Hi. rewrite Hnth. apply Hsigns. lia.
    + unfold span_inv, st0. cbn [trade_type trade_start_idx trades open_date].
      split; [exact Hnz|]. split; [lia|]. split; [simpl; lia|reflexivity].
  - rewrite Hts. unfold seg_finish.
    destruct Hspan as (Ht & _).
    + intros i Hi. rewrite Hnth. apply Hsigns. lia.
    + unfold span_inv, st0. cbn [trade_type trade_start_idx trades open_date].
      split; [exact Hnz|]. split; [lia|]. split; [simpl; lia|reflexivity].
    + rewrite Ht. now rewrite HL.
Qed.

(** X9: when no period from the first invested index [i0] on is flat, the
    durations of the recorded trades add up to the number of periods from
    [i0] to the end of the table. *)
Theorem durations_cover_invested_span :
  forall df ic lev s ts i0,
    run_backtest df ic lev = Ok (s, ts) ->
    first_invested s = Some i0 ->
    (forall i, (i0 <= i < List.length (forecasts s))%nat ->
               fneb (np_sign (nth i (forecasts s) NaN)) (fz 0) = true) ->
    sum_nat (map duration ts) = (List.length (forecasts s) - i0)%nat.
Proof.
  intros df ic lev s ts i0 Hrun Hi0 Hsigns.
  destruct (no_flat_span df ic lev s ts i0 Hrun Hi0 Hsigns)
    as (st & (_ & Hidx & Hsum & _) & ->).
  rewrite map_app. cbn [map]. rewrite sum_nat_snoc, Hsum.
  unfold close_trade. cbn [duration]. lia.
Qed.

Lemma durations_cover_invested_span_witness :
  exists s ts,
    run_backtest scenario_df (zq 1000) (zq 1) = Ok (s, ts) /\
    sum_nat (map duration ts) = 5%nat.
Proof.
  scenario_run.
  apply (durations_cover_invested_span scenario_df (zq 1000) (zq 1)
           _ _ 0%nat eq_refl eq_refl).
  intros i Hi. change (0 <= i < 5)%nat in Hi.
  destruct i as [|[|[|[|[|i]]]]]; try lia; vm_compute; reflexivity.
Defined.

(** X10: when no period from the first invested index [i0] on is flat, the
    first trade starts at the date of [i0], every later trade starts at the
    date the trade before it ended, and the last trade ends at the last
    date of the table. *)
Theorem trades_are_contiguous :
  forall df ic lev s ts i0,
    run_backtest df ic lev = Ok (s, ts) ->
    first_invested s = Some i0 ->
    (forall i, (i0 <= i < List.length (forecasts s))%nat ->
               fneb (np_sign (nth i (forecasts s) NaN)) (fz 0) = true) ->
    map start_date ts =
      nth i0 (dates s) 0%Z :: removelast (map end_date ts) /\
    last (map end_date ts) 0%Z = last (dates s) 0%Z.
Proof.
  intros df ic lev s ts i0 Hrun Hi0 Hsigns.
  destruct (no_flat_span df ic lev s ts i0 Hrun Hi0 Hsigns)
    as (st & (_ & _ & _ & Hdates) & ->).
  rewrite !map_app. cbn [map]. unfold close_trade.
  cbn [start_date end_date]. rewrite removelast_last, last_last.
  split; [exact Hdates | reflexivity].
Qed.

Lemma trades_are_contiguous_witness :
  exists s ts,
    run_backtest scenario_df (zq 1000) (zq 1) = Ok (s, ts) /\
    map start_date ts = [0; 3]%Z /\ map end_date ts = [3; 4]%Z.
Proof.
  scenario_run.
  destruct (trades_are_contiguous scenario_df (zq 1000) (zq 1)
              _ _ 0%nat eq_refl eq_refl) as [H1 H2].
  - intros i Hi. change (0 <= i < 5)%nat in Hi.
    destruct i as [|[|[|[|[|i]]]]]; try lia; vm_compute; reflexivity.
  - split; [exact H1 | reflexivity].
Defined.

(* ================================================================== *)
(** * Total return and final equity *)

Lemma last_cumprod_from l : forall acc,
  l <> [] -> Forall (fun x => is_nan x = false) l ->
  last (cumprod_from acc l) NaN = fold_left fmul l acc.
Proof.
  induction l as [|x l IH]; intros acc Hne Hn; [now elim Hne|].
  inversion Hn as [|? ? Hx Hl]; subst.
  destruct l as [|y l].
  - simpl. now rewrite Hx.
  - change (cumprod_from acc (x :: y :: l))
      with (if is_nan x then NaN :: cumprod_from acc (y :: l)
            else fmul acc x :: cumprod_from (fmul acc x) (y :: l)).
    rewrite Hx.
    change (fold_left fmul (x :: y :: l) acc)
      with (fold_left fmul (y :: l) (fmul acc x)).
    rewrite <- (IH (fmul acc x)) by (auto; discriminate).
    simpl cumprod_from. now destruct (is_nan y).
Qed.

Lemma finite_equity_no_nan ic l : forall acc,
  Forall finite (map (fmul (Fin ic)) (cumprod_from acc l)) ->
  Forall (fun x => is_nan x = false) l.
Proof.
  induction l as [|x l IH]; intros acc H; [constructor|].
  simpl in H. destruct (is_nan x) eqn:E.
  - inversion H as [|? ? H1 _]. discriminate H1.
  - inversion H; subst. constructor; [exact E | eauto].
Qed.

Lemma dropna_all l :
  Forall (fun x => is_nan x = false) l -> dropna l = l.
Proof.
  induction 1 as [|x l Hx Hl IH]; [reflexivity|].
  unfold dropna in *. simpl. rewrite Hx. simpl. now rewrite IH.
Qed.

Lemma last_map {A B} (f : A -> B) (l : list A) (d : A) (d' : B) :
  l <> [] -> last (map f l) d' = f (last l d).
Proof.
  intros H. destruct (exists_last H) as (l' & x & ->).
  rewrite map_app. cbn [map]. now rewrite !last_last.
Qed.

(** An equity curve that stays finite ends at the capital times one plus
    the total return of its return column. *)
Lemma final_equity_total_return ic (returns : column) :
  returns <> [] ->
  Forall finite
    (map (fmul (Fin ic)) (cumprod (map (fadd (fz 1)) returns))) ->
  last (map (fmul (Fin ic)) (cumprod (map (fadd (fz 1)) returns))) NaN =
  fmul (Fin ic) (fadd (fz 1) (total_return returns)).
Proof.
  intros Hne HF.
  pose proof (finite_equity_no_nan ic _ _ HF) as Hn.
  assert (map (fadd (fz 1)) returns <> []) as Hne'
    by (intros E; now apply map_eq_nil in E).
  assert (cumprod (map (fadd (fz 1)) returns) <> []) as Hne''.
  { intros E. apply (f_equal (@List.length _)) in E. unfold cumprod in E.
    rewrite length_cumprod_from in E.
    destruct (map (fadd (fz 1)) returns); [now elim Hne'|discriminate]. }
  assert (last (map (fmul (Fin ic)) (cumprod (map (fadd (fz 1)) returns))) NaN
          = fmul (Fin ic) (fold_left fmul (map (fadd (fz 1)) returns) (fz 1)))
    as Hlast.
  { rewrite (last_map _ _ NaN) by exact Hne''.
    unfold cumprod. now rewrite last_cumprod_from. }
  rewrite Hlast.
  assert (finite (fmul (Fin ic)
                    (fold_left fmul (map (fadd (fz 1)) returns) (fz 1))))
    as Hfin.
  { rewrite <- Hlast. rewrite Forall_forall in HF. apply HF.
    destruct (exists_last
                (l := map (fmul (Fin ic))
                          (cumprod (map (fadd (fz 1)) returns)))) as (l & x & E).
    - intros E. now apply map_eq_nil in E.
    - rewrite E, last_last. apply in_or_app. right. now left. }
  destruct (finite_inv _ Hfin) as [e He].
  destruct (fmul_fin_inv _ _ _ He) as (p & Hp & _).
  unfold total_return, col_prod. rewrite (dropna_all _ Hn), Hp.
  cbn [fsub fneg fadd fz]. do 2 f_equal. change (zq 1) with (1 : Qc). ring.
Qed.

(** X11: for a run whose equity curve is finite, the Total Return that
    [calculate_metrics] reports on the run's return column is the final
    equity over the initial capital minus 1: final equity = capital *
    (1 + Total Return); for the strategy and for the asset alike. *)
Theorem total_return_is_final_equity :
  forall (np_sqrt : float64 -> float64)
         (np_power : float64 -> float64 -> float64)
         df ic lev s ts rf,
    run_backtest df ic lev = Ok (s, ts) ->
    (Forall finite (strategy_equity s) ->
     exists d tr,
       calculate_metrics np_sqrt np_power (strategy_return s) rf = Ok d /\
       get "Total Return" d = Some (PyFloat tr) /\
       last (strategy_equity s) NaN = fmul (Fin ic) (fadd (fz 1) tr)) /\
    (Forall finite (asset_equity s) ->
     exists d tr,
       calculate_metrics np_sqrt np_power (asset_return s) rf = Ok d /\
       get "Total Return" d = Some (PyFloat tr) /\
       last (asset_equity s) NaN = fmul (Fin ic) (fadd (fz 1) tr)).
Proof.
  intros np_sqrt np_power df ic lev s ts rf Hrun.
  pose proof (kept_nonempty df ic lev _ Hrun) as Hne.
  destruct (run_backtest_ok_inv df ic lev s ts Hrun) as [Hs _].
  assert (strategy_return s <> []) as Hsr.
  { intros E. apply (f_equal (@List.length _)) in E.
    rewrite Hs, length_strategy_return in E.
    destruct (kept df); [now elim Hne | discriminate]. }
  assert (asset_return s <> []) as Har.
  { intros E. apply (f_equal (@List.length _)) in E. rewrite Hs in E.
    unfold engine in E. cbn [asset_return] in E.
    rewrite length_fillna, length_pct_change, length_map in E.
    destruct (kept df); [now elim Hne | discriminate]. }
  split; intros HF.
  - destruct (calculate_metrics_returns np_sqrt np_power (strategy_return s) rf)
      as (c & _ & Hd).
    eexists; eexists. split; [exact Hd|]. split; [reflexivity|].
    rewrite <- (final_equity_total_return ic (strategy_return s) Hsr).
    + now rewrite Hs.
    + rewrite Hs in HF |- *. exact HF.
  - destruct (calculate_metrics_returns np_sqrt np_power (asset_return s) rf)
      as (c & _ & Hd).
    eexists; eexists. split; [exact Hd|]. split; [reflexivity|].
    rewrite <- (final_equity_total_return ic (asset_return s) Har).
    + now rewrite Hs.
    + rewrite Hs in HF |- *. exact HF.
Qed.

Lemma total_return_is_final_equity_witness :
  exists s ts d tr,
    run_backtest scenario_df (zq 1000) (zq 1) = Ok (s, ts) /\
    calculate_metrics sqrt_model power_model (strategy_return s) (fz 0)
      = Ok d /\
    get "Total Return" d = Some (PyFloat tr) /\
    last (strategy_equity s) NaN = fmul (Fin (zq 1000)) (fadd (fz 1) tr).
Proof.
  exists (engine (kept scenario_df) (zq 1000) (zq 1)). eexists.
  destruct (total_return_is_final_equity sqrt_model power_model
              scenario_df (zq 1000) (zq 1) _ _ (fz 0) eq_refl) as [H _].
  destruct H as (d & tr & H1 & H2 & H3).
  - vm_compute. repeat constructor.
  - exists d, tr. split; [reflexivity|]. repeat split; assumption.
Defined.

(* ================================================================== *)
(** * The outcomes of run_backtest, on the table itself *)

Lemma has_column_lower name cols :
  has_column name (map lower cols) = true <->
  exists c, In c cols /\ lower c = name.
Proof.
  unfold has_column. rewrite existsb_exists. split.
  - intros (x & Hx & He). apply in_map_iff in Hx.
    destruct Hx as (c & <- & Hc). apply String.eqb_eq in He. eauto.
  - intros (c & Hc & <-). exists (lower c). split.
    + now apply in_map.
    + apply String.eqb_refl.
Qed.

Lemma is_nan_eq x : is_nan x = true <-> x = NaN.
Proof. destruct x; split; intros H; try discriminate; reflexivity. Qed.

Lemma some_forecast_false df :
  some_forecast df = false <->
  Forall (fun r => forecast r = NaN) (rows df).
Proof.
  unfold some_forecast. rewrite Forall_forall. split.
  - intros H r Hr. apply is_nan_eq.
    destruct (is_nan (forecast r)) eqn:E; [reflexivity|].
    assert (existsb notna (rows df) = true) as C.
    { apply existsb_exists. exists r. split; [exact Hr|].
      unfold notna. now rewrite E. }
    congruence.
  - intros H. destruct (existsb notna (rows df)) eqn:E; [|reflexivity].
    apply existsb_exists in E. destruct E as (r & Hr & Hn).
    unfold notna in Hn. rewrite (H r Hr) in Hn. discriminate.
Qed.

Lemma required_columns_false df :
  required_columns df = false <->
  ~ (exists c, In c (columns df) /\ lower c = "close"%string) \/
  ~ (exists c, In c (columns df) /\ lower c = "forecast"%string).
Proof.
  unfold required_columns. rewrite andb_false_iff.
  rewrite <- !has_column_lower.
  split; intros [H|H]; [left|right|left|right];
    try (intros C; congruence);
    destruct (has_column _ _); auto; now elim H.
Qed.



(* ================================================================== *)
(** * Trade metrics: the win rate *)

Lemma zq_le (a b : Z) : (a <= b)%Z -> zq a <= zq b.
Proof.
  intros H. unfold zq, Qcle. cbn [this Q2Qc]. apply Qred_le.
  now rewrite <- Zle_Qle.
Qed.

Lemma zq_lt (a b : Z) : (a < b)%Z -> zq a < zq b.
Proof.
  intros H. apply Qcnot_le_lt. intros C.
  assert (zq a <= zq b) as L by (apply zq_le; lia).
  assert (zq a = zq b) as E.
  { apply Qcle_antisym; assumption. }
  apply zq_inj in E. lia.
Qed.

(** X14: on a non-empty ledger the reported Win Rate is a fraction between 0
    and 1, the share of the trades whose [pnl] is positive, and Total Trades
    is the number of trades. *)
Theorem win_rate_is_a_fraction :
  forall t ts, exists d q,
    calculate_trade_metrics (t :: ts) = Ok d /\
    get "Total Trades" d = Some (PyInt (Z.of_nat (List.length (t :: ts)))) /\
    get "Win Rate" d = Some (PyFloat (Fin q)) /\
    q * zq (Z.of_nat (List.length (t :: ts))) =
      zq (Z.of_nat (List.length (wins (t :: ts)))) /\
    0 <= q /\ q <= 1.
Proof.
  intros t ts.
  set (n := Z.of_nat (List.length (t :: ts))).
  set (w := Z.of_nat (List.length (wins (t :: ts)))).
  assert (0 < n)%Z as Hn by (unfold n; simpl List.length; lia).
  assert (0 <= w <= n)%Z as Hw.
  { unfold w, n, wins. pose proof (filter_length_le
      (fun t0 => fgtb (pnl t0) (fz 0)) (t :: ts)). lia. }
  assert (zq n <> 0) as Hnz.
  { intros E. change (0 : Qc) with (zq 0) in E. apply zq_inj in E. lia. }
  assert (fdiv (fz w) (fz n) = Fin (zq w / zq n)) as Hdiv.
  { unfold fdiv, fz. apply Qceqb_neq in Hnz. now rewrite Hnz. }
  unfold calculate_trade_metrics. rewrite py_truediv_len.
  fold w. fold n. rewrite Hdiv. cbn [bind].
  eexists. exists (zq w / zq n).
  split; [reflexivity|].
  - split; [reflexivity|]. split; [reflexivity|].
    assert (zq w / zq n * zq n = zq w) as Hq by (field; exact Hnz).
    split; [exact Hq|].
    assert (0 < zq n) as Hpos by (change (0 : Qc) with (zq 0); apply zq_lt; lia).
    split; apply (Qcmult_lt_0_le_reg_r _ _ (zq n) Hpos); rewrite Hq.
    + rewrite Qcmult_0_l. change (0 : Qc) with (zq 0). apply zq_le. lia.
    + rewrite Qcmult_1_l. apply zq_le. lia.
Qed.

(* ================================================================== *)
(** * Market regimes *)

Lemma Qcltb_lt (a b : Qc) : Qcltb a b = true <-> a < b.
Proof.
  unfold Qcltb. rewrite Qclt_alt.
  destruct (Qccompare a b); split; intros H; try reflexivity; discriminate.
Qed.

Lemma fleb_fin (a b : Qc) : fleb (Fin a) (Fin b) = true <-> a <= b.
Proof.
  unfold fleb. cbn [fltb feqb]. rewrite orb_true_iff, Qcltb_lt, Qceqb_eq.
  split.
  - intros [H| ->]; [now apply Qclt_le_weak | apply Qcle_refl].
  - intros H. apply Qcle_lt_or_eq in H. tauto.
Qed.

(** Annualizing keeps the order. *)
Lemma annualize_mono x y :
  fleb x y = true -> fleb (fmul x (fz 756)) (fmul y (fz 756)) = true.
Proof.
  destruct x as [a| | |], y as [b| | |]; try discriminate;
    try reflexivity.
  intros H. apply fleb_fin in H. cbn [fmul fz]. apply fleb_fin.
  apply Qcmult_le_compat_r; [exact H|].
  change (0 : Qc) with (zq 0). apply zq_le. lia.
Qed.

Lemma fgtb_mono a b t :
  fleb a b = true -> fgtb a (Fin t) = true -> fgtb b (Fin t) = true.
Proof.
  unfold fgtb.
  destruct a as [a| | |], b as [b| | |]; try discriminate;
    try reflexivity.
  intros H1 H2. apply fleb_fin in H1. cbn [fltb] in *.
  apply Qcltb_lt in H2. apply Qcltb_lt.
  eapply Qclt_le_trans; eassumption.
Qed.

(** X15: [classify_regime] is monotone: a larger rolling return never gets
    a more bearish regime. *)
Theorem classify_regime_monotone :
  forall x y,
    fleb x y = true ->
    (bullishness (classify_regime x) <= bullishness (classify_regime y))%nat.
Proof.
  intros x y H. apply annualize_mono in H.
  unfold classify_regime. cbv zeta.
  set (A := fmul x (fz 756)) in *. set (B := fmul y (fz 756)) in *.
  unfold qf.
  pose proof (fgtb_mono A B (zq 30 / zq 100) H) as H1.
  pose proof (fgtb_mono A B (zq 10 / zq 100) H) as H2.
  pose proof (fgtb_mono A B (zq (-10) / zq 100) H) as H3.
  pose proof (fgtb_mono A B (zq (-30) / zq 100) H) as H4.
  destruct (fgtb A (Fin (zq 30 / zq 100)));
    [rewrite (H1 eq_refl); simpl; lia|].
  destruct (fgtb A (Fin (zq 10 / zq 100)));
    [rewrite (H2 eq_refl); destruct (fgtb B _); simpl; lia|].
  destruct (fgtb A (Fin (zq (-10) / zq 100)));
    [rewrite (H3 eq_refl); repeat destruct (fgtb B _); simpl; lia|].
  destruct (fgtb A (Fin (zq (-30) / zq 100)));
    [rewrite (H4 eq_refl); repeat destruct (fgtb B _); simpl; lia|].
  simpl. lia.
Qed.

Lemma classify_regime_monotone_witness :
  (bullishness (classify_regime (qf (-1) 1000)) <=
   bullishness (classify_regime (qf 1 1000)))%nat.
Proof.
  apply classify_regime_monotone. vm_compute. reflexivity.
Defined.

Lemma nth_error_rolling_mean w l i :
  (i < List.length l)%nat ->
  nth_error (rolling_mean w l) i =
  Some (if (S i <? w)%nat then NaN
        else window_mean w (firstn w (skipn (S i - w) l))).
Proof.
  intros H. unfold rolling_mean. rewrite nth_error_map.
  rewrite (nth_error_nth' (seq 0 (List.length l)) 0%nat)
    by (rewrite length_seq; exact H).
  rewrite seq_nth by exact H. reflexivity.
Qed.

(** X16: the first 20 periods of a table, whose 21-period rolling return is
    not yet defined, are all classified Strong Bear. *)
Theorem warm_up_periods_are_strong_bear :
  forall s i,
    (i < 20)%nat -> (i < List.length (asset_return s))%nat ->
    nth_error (regime_labels s) i = Some StrongBear.
Proof.
  intros s i H20 Hlen. unfold regime_labels.
  rewrite nth_error_map, (nth_error_rolling_mean _ _ _ Hlen).
  unfold rolling_window.
  assert ((S i <? 21)%nat = true) as -> by (apply Nat.ltb_lt; lia).
  reflexivity.
Qed.

Lemma warm_up_periods_are_strong_bear_witness :
  nth_error (regime_labels (engine (kept scenario_df) (zq 1000) (zq 1))) 4
  = Some StrongBear.
Proof.
  apply warm_up_periods_are_strong_bear; [lia|].
  change (4 < 5)%nat. lia.
Defined.

Lemma sum_nat_app l m : sum_nat (l ++ m) = (sum_nat l + sum_nat m)%nat.
Proof. induction l as [|a l IH]; simpl; lia. Qed.

Lemma regime_counts (labels : list regime) :
  (List.length (filter (fun x => regime_eqb x StrongBull) labels) +
   (List.length (filter (fun x => regime_eqb x Bull) labels) +
    (List.length (filter (fun x => regime_eqb x Sideways) labels) +
     (List.length (filter (fun x => regime_eqb x Bear) labels) +
      List.length (filter (fun x => regime_eqb x StrongBear) labels)))))%nat
  = List.length labels.
Proof.
  induction labels as [|g labels IH]; [reflexivity|].
  destruct g; simpl; lia.
Qed.

(** X17: every period is counted in exactly one row of the regime table:
    the Periods of its rows add up to the number of periods, and no row has
    0 periods. *)
Theorem regime_periods_partition :
  forall s,
    sum_nat (map Periods (regime_performance s)) =
      List.length (asset_return s) /\
    Forall (fun r => (0 < Periods r)%nat) (regime_performance s).
Proof.
  intros s. unfold regime_performance. cbv zeta.
  set (labels := regime_labels s).
  assert (List.length labels = List.length (asset_return s)) as HL.
  { unfold labels, regime_labels, rolling_mean.
    now rewrite !length_map, length_seq. }
  rewrite <- HL, <- (regime_counts labels).
  cbn [flat_map]. rewrite app_nil_r.
  split.
  - rewrite !map_app, !sum_nat_app.
    repeat (f_equal;
            try (destruct (List.length (filter _ labels));
                 simpl; lia)).
  - repeat (apply Forall_app; split);
      (destruct (List.length (filter _ labels));
       [apply Forall_nil
       | apply Forall_cons; [cbn [Periods]; lia | apply Forall_nil]]).
Qed.

(* ================================================================== *)
(** * Compounding *)

(** On a finite equity curve each value is the one before times one plus
    the period's return. *)
Lemma equity_step ic (returns : column) k e r :
  Forall finite
    (map (fmul (Fin ic)) (cumprod (map (fadd (fz 1)) returns))) ->
  nth_error (map (fmul (Fin ic)) (cumprod (map (fadd (fz 1)) returns))) k
    = Some e ->
  nth_error returns (S k) = Some r ->
  nth_error (map (fmul (Fin ic)) (cumprod (map (fadd (fz 1)) returns))) (S k)
    = Some (fmul e (fadd (fz 1) r)).
Proof.
  intros HF Hk Hr.
  set (X := map (fadd (fz 1)) returns) in *.
  assert (nth_error X (S k) = Some (fadd (fz 1) r)) as HX
    by (unfold X; rewrite nth_error_map, Hr; reflexivity).
  assert (S k < List.length (map (fmul (Fin ic)) (cumprod X)))%nat as Hlen.
  { unfold cumprod. rewrite length_map, length_cumprod_from.
    now apply nth_error_lt in HX. }
  destruct (nth_error_finite _ (S k) HF Hlen) as [esk Hsk].
  destruct (nth_error_finite _ k HF ltac:(lia)) as [ek Hk'].
  rewrite Hk in Hk'. inversion Hk' as [He]. subst e. clear Hk'.
  rewrite Hsk. rewrite nth_error_map in Hk, Hsk.
  destruct (nth_error (cumprod X) k) as [ck|] eqn:Ck; [|discriminate].
  destruct (nth_error (cumprod X) (S k)) as [csk|] eqn:Csk; [|discriminate].
  simpl in Hk, Hsk. inversion Hk as [Hk']. inversion Hsk as [Hsk'].
  destruct (fmul_fin_inv _ _ _ Hk') as (qk & -> & ->).
  destruct (fmul_fin_inv _ _ _ Hsk') as (qsk & -> & ->).
  destruct (is_nan (fadd (fz 1) r)) eqn:Hnan.
  { unfold cumprod in Csk.
    rewrite (nth_error_cumprod_nan _ _ _ _ HX Hnan) in Csk. discriminate. }
  unfold cumprod in Ck, Csk.
  rewrite (nth_error_cumprod_step _ _ _ _ _ Ck ltac:(discriminate) HX Hnan)
    in Csk.
  injection Csk as Hstep.
  destruct (fmul_fin_inv _ _ _ Hstep) as (b & Hb & ->).
  change (fadd (fz 1) r = Fin b) in Hb.
  rewrite Hb. cbn [fmul]. do 2 f_equal. ring.
Qed.



Lemma compounded_snoc l x :
  compounded (l ++ [x]) = fmul (compounded l) (fadd (fz 1) x).
Proof. unfold compounded. now rewrite map_app, fold_left_app. Qed.

Section CompoundedLedger.

Variable equity_curve : column.
Variable dates_ : list Z.
Variable signs : column.
Variable basis0 : Qc.

Hypothesis equity_ok : Forall finite_nonzero equity_curve.
Hypothesis basis_ok : basis0 <> 0.

Lemma pnl_step_inv st i :
  (i < List.length equity_curve)%nat ->
  fneb (nth i signs NaN) (fz 0) = true ->
  pnl_inv basis0 st ->
  pnl_inv basis0 (seg_step equity_curve dates_ signs st i).
Proof.
  intros Hi Hs (Ht & b & Hb & Hbz & Hc). unfold seg_step.
  destruct (fneb (nth i signs NaN) (trade_type st));
    [|now split; eauto].
  rewrite Hs.
  assert (finite_nonzero (nth i equity_curve NaN)) as (e & He & Hez).
  { rewrite Forall_forall in equity_ok. apply equity_ok. now apply nth_In. }
  split; [exact Hs|]. exists e. split; [exact He|]. split; [exact Hez|].
  cbn [trades]. rewrite map_app. cbn [map]. rewrite compounded_snoc, Hc.
  unfold close_trade. cbn [pnl]. rewrite Hb, He.
  unfold fdiv. apply Qceqb_neq in Hbz. rewrite Hbz.
  cbn [fsub fneg fadd fz fmul]. f_equal. change (zq 1) with (1 : Qc).
  apply Qceqb_neq in Hbz. field. split; assumption.
Qed.

Lemma pnl_loop_inv n : forall a st,
  (a + n <= List.length equity_curve)%nat ->
  (forall i, (a <= i < a + n)%nat ->
             fneb (nth i signs NaN) (fz 0) = true) ->
  pnl_inv basis0 st ->
  pnl_inv basis0
    (fold_left (seg_step equity_curve dates_ signs) (seq a n) st).
Proof.
  induction n as [|n IH]; intros a st Hlen Hs Hinv; [exact Hinv|].
  simpl. apply IH.
  - lia.
  - intros i Hi. apply Hs. lia.
  - apply pnl_step_inv; [lia | apply Hs; lia | exact Hinv].
Qed.

Lemma pnl_finish st :
  equity_curve <> [] ->
  pnl_inv basis0 st ->
  fmul (Fin basis0)
       (compounded (map pnl (seg_finish equity_curve dates_ signs st))) =
  last equity_curve NaN.
Proof.
  intros Hne (Ht & b & Hb & Hbz & Hc). unfold seg_finish. rewrite Ht.
  rewrite map_app. cbn [map]. rewrite compounded_snoc, Hc.
  unfold close_trade. cbn [pnl]. rewrite Hb.
  assert (finite_nonzero (last equity_curve NaN)) as (e & He & Hez).
  { rewrite Forall_forall in equity_ok. apply equity_ok.
    destruct (exists_last Hne) as (l & x & ->).
    rewrite last_last. apply in_or_app. right. now left. }
  rewrite He. unfold fdiv. apply Qceqb_neq in Hbz. rewrite Hbz.
  cbn [fsub fneg fadd fz fmul]. f_equal. change (zq 1) with (1 : Qc).
  apply Qceqb_neq in Hbz. field. split; assumption.
Qed.

End CompoundedLedger.



(* ================================================================== *)
(** * Leverage *)

Lemma scaled_shift L (P : column) : forall (A : column) a1 aL,
  Forall finite A -> Forall finite P ->
  finite (if is_nan a1 then fz 0 else a1) ->
  (if is_nan aL then fz 0 else aL) =
    fmul (Fin L) (if is_nan a1 then fz 0 else a1) ->
  zip_with fmul A (fillna (fz 0) (shift_from aL (map (fmul (Fin L)) P))) =
  map (fmul (Fin L)) (zip_with fmul A (fillna (fz 0) (shift_from a1 P))).
Proof.
  induction P as [|p P IH]; intros A a1 aL HA HP H1 HL.
  - destruct A; reflexivity.
  - destruct A as [|x A]; [reflexivity|].
    inversion HA as [|? ? Hx HA']; subst.
    inversion HP as [|? ? Hp HP']; subst.
    cbn [map shift_from fillna zip_with]. rewrite HL.
    destruct (finite_inv _ Hx) as [qx ->].
    destruct (finite_inv _ H1) as [q1 ->].
    destruct (finite_inv _ Hp) as [qp ->].
    f_equal.
    + cbn [fmul]. f_equal. ring.
    + apply (IH A (Fin qp) (fmul (Fin L) (Fin qp))); auto.
Qed.



(* ================================================================== *)
(** * Drawdown *)

Ltac qc2q :=
  unfold Qclt, Qcle in *;
  cbn [this Qcplus Qcmult Qcminus Qcopp Qcdiv Qcinv Q2Qc] in *;
  rewrite ?Qred_correct in *.

Lemma Qc_mult_pos (a b : Qc) : 0 < a -> 0 < b -> 0 < a * b.
Proof. intros. qc2q. nra. Qed.

Lemma Qc_one_plus_pos (q : Qc) : - (1) < q -> 0 < 1 + q.
Proof. intros. qc2q. lra. Qed.

Lemma Qc_drawdown_bounds (c p : Qc) :
  0 < c -> c <= p -> - (1) < (c - p) / p /\ (c - p) / p <= 0.
Proof.
  intros. qc2q. assert (0 < this p)%Q by lra. split.
  - apply Qlt_shift_div_l; auto. lra.
  - apply Qle_shift_div_r; auto. lra.
Qed.

Lemma Qc_pos_nonzero (p : Qc) : 0 < p -> p <> 0.
Proof.
  intros H E. rewrite E in H. apply Qclt_not_le in H. apply H, Qcle_refl.
Qed.

Lemma Qcltb_ge (a b : Qc) : Qcltb a b = false -> b <= a.
Proof.
  intros H. apply Qcnot_lt_le. intros C. apply Qcltb_lt in C. congruence.
Qed.

(** Every drawdown of returns above -1 lies above -1 and not above 0. *)
Lemma drawdown_cells_bounded returns : forall a m,
  0 < a ->
  (m = NInf \/ exists q, m = Fin q /\ 0 < q) ->
  Forall (fun r => exists q, r = Fin q /\ - (1) < q) returns ->
  Forall (fun d => exists q, d = Fin q /\ - (1) < q /\ q <= 0)
    (zip_with (fun c p => fdiv (fsub c p) p)
       (cumprod_from (Fin a) (map (fadd (fz 1)) returns))
       (cummax_from m (cumprod_from (Fin a) (map (fadd (fz 1)) returns)))).
Proof.
  induction returns as [|r returns IH]; intros a m Ha Hm Hr; [constructor|].
  inversion Hr as [|? ? (q0 & -> & Hq0) Hr']; subst.
  cbn [map fadd fz cumprod_from is_nan fmul cummax_from].
  set (c := a * (zq 1 + q0)).
  assert (0 < c) as Hc.
  { unfold c. apply Qc_mult_pos; [exact Ha|].
    change (zq 1) with (1 : Qc). now apply Qc_one_plus_pos. }
  assert (exists p, fmax m (Fin c) = Fin p /\ c <= p /\ 0 < p)
    as (p & Hp & Hcp & Hp0).
  { unfold fmax. destruct Hm as [->|(mq & -> & Hmq)].
    - exists c. repeat split; [apply Qcle_refl | exact Hc].
    - cbn [fltb]. destruct (Qcltb mq c) eqn:E.
      + exists c. repeat split; [apply Qcle_refl | exact Hc].
      + exists mq. repeat split; [now apply Qcltb_ge | exact Hmq]. }
  rewrite Hp. cbn [zip_with]. constructor.
  - exists ((c - p) / p). split.
    + cbn [fsub fneg fadd]. unfold fdiv.
      pose proof (Qc_pos_nonzero p Hp0) as Hz. apply Qceqb_neq in Hz.
      now rewrite Hz.
    + now apply Qc_drawdown_bounds.
  - apply IH; [exact Hc | right; eauto | exact Hr'].
Qed.

Lemma fold_fmin_keeps (P : float64 -> Prop) l : forall x,
  P x -> Forall P l -> P (fold_left fmin l x).
Proof.
  induction l as [|y l IH]; intros x Hx Hl; [exact Hx|].
  inversion Hl; subst. simpl. apply IH; [|assumption].
  unfold fmin. now destruct (fltb y x).
Qed.


